(** * functional_style_checker.py: a shallow embedding and its properties

    The program reads one Python file, parses it with the [ast] module,
    walks the tree to collect imports, classes with their methods and
    standalone functions, and formats a four-section style report.

    The embedding follows the source function by function.  Python's [ast]
    objects are values of the type [node]; an object's identity, which the
    program relies on when it stores a [parent] attribute on every child, is
    the position of the node in the tree. *)

From stdpp Require Import base option list gmap strings.
From stdpp Require Import pretty sorting.
From Stdlib Require Import Ascii String Arith Lia.

Set Warnings "-register-all".

Local Open Scope string_scope.
Local Open Scope list_scope.

(** ** Exceptions and results *)

Inductive exn : Type :=
| AttributeError
| SyntaxError
| FileNotFoundError
| EOFError
| SystemExit (code : nat).

Inductive result (A : Type) : Type :=
| Ok (a : A)
| Raise (e : exn).
Arguments Ok {A} a.
Arguments Raise {A} e.

Definition bind {A B} (r : result A) (k : A -> result B) : result B :=
  match r with
  | Ok a => k a
  | Raise e => Raise e
  end.

Notation "'let!' x ':=' r 'in' k" := (bind r (fun x => k))
  (at level 10, x name, r at level 100, k at level 200).

(** A comprehension [[f(x) for x in xs]] whose body may raise: the elements
    are computed left to right and the first exception ends it. *)
Fixpoint comprehension {A B} (f : A -> result B) (xs : list A) : result (list B) :=
  match xs with
  | [] => Ok []
  | x :: xs' =>
      let! y := f x in
      let! ys := comprehension f xs' in
      Ok (y :: ys)
  end.

(** ** The syntax tree

    Every object the parser hands out is a [node].  The kinds the program
    tests with [isinstance] or reads attributes of have a constructor of
    their own, with the fields of the [ast] grammar in its order; every other
    kind (statements such as [If] or [Return], expressions such as [BinOp] or
    [Tuple], contexts, operators, handlers) is an [Other] node that lists its
    node-valued fields by name, each with the child nodes it holds (one for
    a plain field, none for an absent optional field, several for a list
    field).

    The fields are those of the grammar of Python 3.8 to 3.11.  Up to 3.8
    the parser wraps the subscript of a [Subscript] in an [Index] node, from
    3.9 on it stores the expression itself; both trees are values of [node],
    and [annotation_to_string] below reads either of them the way Python
    would.  [Module.type_ignores] is empty unless type comments are asked
    for and is left out. *)

Inductive constant : Type :=
| CStr (s : string)
| COther.

Record alias : Type := { alias_name : string; asname : option string }.

Record arg_of (N : Type) : Type := { arg : string; annotation : option N }.
Arguments arg {N} _.
Arguments annotation {N} _.

Record arguments_of (N : Type) : Type := {
  posonlyargs : list (arg_of N);
  args : list (arg_of N);
  vararg : option (arg_of N);
  kwonlyargs : list (arg_of N);
  kw_defaults : list (option N);
  kwarg : option (arg_of N);
  defaults : list N
}.
Arguments posonlyargs {N} _.
Arguments args {N} _.
Arguments vararg {N} _.
Arguments kwonlyargs {N} _.
Arguments kw_defaults {N} _.
Arguments kwarg {N} _.
Arguments defaults {N} _.

Inductive node : Type :=
| Module (body : list node)
| Import (names : list alias)
| ImportFrom (module : option string) (names : list alias) (level : nat)
| ClassDef (name : string) (bases keywords body decorator_list : list node)
| FunctionDef (name : string) (a : arguments_of node)
    (body decorator_list : list node) (returns : option node)
| AsyncFunctionDef (name : string) (a : arguments_of node)
    (body decorator_list : list node) (returns : option node)
| Expr (value : node)
| Constant (value : constant)
| Name (id : string) (ctx : node)
| Attribute (value : node) (attr : string) (ctx : node)
| Subscript (value slice ctx : node)
| Index (value : node)
| Alias_node (al : alias)
| Arguments_node (a : arguments_of node)
| Arg_node (a : arg_of node)
| Other (kind : string) (fields : list (string * list node)).

Abbreviation arg_t := (arg_of node).
Abbreviation arguments := (arguments_of node).

Definition Load : node := Other "Load" [].
Definition Store : node := Other "Store" [].

Definition opt_list {A} (o : option A) : list A :=
  match o with
  | Some x => [x]
  | None => []
  end.

(** [ast.iter_child_nodes]: the node-valued fields in the order of
    [_fields]; a list field gives its items, an absent optional field
    nothing. *)
Definition iter_child_nodes (n : node) : list node :=
  match n with
  | Module body => body
  | Import names => map Alias_node names
  | ImportFrom _ names _ => map Alias_node names
  | ClassDef _ bases keywords body decorator_list =>
      bases ++ keywords ++ body ++ decorator_list
  | FunctionDef _ a body decorator_list returns
  | AsyncFunctionDef _ a body decorator_list returns =>
      Arguments_node a :: body ++ decorator_list ++ opt_list returns
  | Expr value => [value]
  | Constant _ => []
  | Name _ ctx => [ctx]
  | Attribute value _ ctx => [value; ctx]
  | Subscript value slice ctx => [value; slice; ctx]
  | Index value => [value]
  | Alias_node _ => []
  | Arguments_node a =>
      map Arg_node (posonlyargs a) ++ map Arg_node (args a)
        ++ map Arg_node (opt_list (vararg a))
        ++ map Arg_node (kwonlyargs a)
        ++ flat_map opt_list (kw_defaults a)
        ++ map Arg_node (opt_list (kwarg a))
        ++ defaults a
  | Arg_node a => opt_list (annotation a)
  | Other _ fields => flat_map snd fields
  end.

(** Number of nodes of a tree: the fuel [walk] needs. *)
Fixpoint node_size (n : node) : nat :=
  let sizes := sum_list_with node_size in
  let osize := fun o : option node =>
    match o with
    | Some x => node_size x
    | None => 0
    end in
  let asize := fun a : arg_t => S (osize (annotation a)) in
  let oasize := fun o : option arg_t =>
    match o with
    | Some x => asize x
    | None => 0
    end in
  let args_size := fun a : arguments =>
    S (sum_list_with asize (posonlyargs a) + sum_list_with asize (args a)
       + oasize (vararg a)
       + sum_list_with asize (kwonlyargs a)
       + sum_list_with osize (kw_defaults a)
       + oasize (kwarg a)
       + sizes (defaults a)) in
  match n with
  | Module body => S (sizes body)
  | Import names => S (List.length names)
  | ImportFrom _ names _ => S (List.length names)
  | ClassDef _ bases keywords body decorator_list =>
      S (sizes bases + sizes keywords + sizes body + sizes decorator_list)
  | FunctionDef _ a body decorator_list returns
  | AsyncFunctionDef _ a body decorator_list returns =>
      S (args_size a + sizes body + sizes decorator_list + osize returns)
  | Expr value => S (node_size value)
  | Constant _ => 1
  | Name _ ctx => S (node_size ctx)
  | Attribute value _ ctx => S (node_size value + node_size ctx)
  | Subscript value slice ctx =>
      S (node_size value + node_size slice + node_size ctx)
  | Index value => S (node_size value)
  | Alias_node _ => 1
  | Arguments_node a => args_size a
  | Arg_node a => asize a
  | Other _ fields => S (sum_list_with (fun f => sizes (snd f)) fields)
  end.

(** ** Object identity and [ast.walk]

    A reference to a node is the node together with its position: the child
    indices that lead to it, innermost first, so that the parent's position
    is the tail. *)

Definition path : Type := list nat.
Definition ref : Type := (path * node)%type.

Definition child_refs (r : ref) : list ref :=
  imap (fun i c => (i :: r.1, c)) (iter_child_nodes r.2).

(** [ast.walk]: a queue that starts with the root; the first node is popped,
    its children are appended at the back, the node is yielded. *)
Fixpoint walk_from (fuel : nat) (todo : list ref) : list ref :=
  match fuel, todo with
  | S fuel', r :: rest => r :: walk_from fuel' (rest ++ child_refs r)
  | _, _ => []
  end.

Definition queue_size (todo : list ref) : nat :=
  sum_list_with (fun r => node_size r.2) todo.

Definition walk (tree : node) : list ref :=
  walk_from (node_size tree) [([], tree)].

(** ** The data model: the dictionaries [parse_file_structure] builds

    One record per dictionary shape; a field stands for the key of the same
    name ([f_name], [c_name] and [p_name] for ['name'], [f_args] for
    ['args'], [p_annotation] for ['annotation'], and so on). *)

Record param_info : Type := {
  p_name : string;
  p_annotation : option string
}.

Record function_info : Type := {
  f_name : string;
  f_docstring : option string;
  f_args : list param_info;
  f_returns : option string
}.

Record class_info : Type := {
  c_name : string;
  c_docstring : option string;
  c_methods : list function_info
}.

Record structure : Type := {
  lines_of_code : nat;
  imports : list string;
  classes : list class_info;
  functions : list function_info
}.

(** ** Attribute access on nodes *)

(** What reading an attribute gives: a node, or a Python value that is not
    a node (a string, a number, [None]). *)
Inductive pyval : Type :=
| PyNode (n : node)
| PyAtom.

(** [x.id]: only [Name] objects have the attribute. *)
Definition getattr_id (n : node) : result string :=
  match n with
  | Name id _ => Ok id
  | _ => Raise AttributeError
  end.

Definition hasattr_id (n : node) : bool :=
  match n with
  | Name _ _ => true
  | _ => false
  end.

Fixpoint lookup_field (f : string) (fields : list (string * list node)) : option (list node) :=
  match fields with
  | [] => None
  | (k, v) :: rest => if String.eqb k f then Some v else lookup_field f rest
  end.

(** [x.value]: the node or value stored there, [AttributeError] for a kind
    of node without the field. *)
Definition getattr_value (n : node) : result pyval :=
  match n with
  | Expr value => Ok (PyNode value)
  | Constant _ => Ok PyAtom
  | Attribute value _ _ => Ok (PyNode value)
  | Subscript value _ _ => Ok (PyNode value)
  | Index value => Ok (PyNode value)
  | Other _ fields =>
      match lookup_field "value" fields with
      | Some [v] => Ok (PyNode v)
      | Some _ => Ok PyAtom
      | None => Raise AttributeError
      end
  | _ => Raise AttributeError
  end.

Definition pyval_hasattr_id (v : pyval) : bool :=
  match v with
  | PyNode n => hasattr_id n
  | PyAtom => false
  end.

Definition pyval_getattr_id (v : pyval) : result string :=
  match v with
  | PyNode n => getattr_id n
  | PyAtom => Raise AttributeError
  end.

(** ** [annotation_to_string] *)

Definition annotation_to_string (annotation : option node) : result (option string) :=
  match annotation with
  | None => Ok None
  | Some (Name id _) => Ok (Some id)
  | Some (Attribute value attr _) =>
      let! base := getattr_id value in
      Ok (Some (base +:+ "." +:+ attr))
  | Some (Subscript value slice _) =>
      if hasattr_id value then
        let! inner := getattr_value slice in
        if pyval_hasattr_id inner then
          let! base := getattr_id value in
          let! item := pyval_getattr_id inner in
          Ok (Some (base +:+ "[" +:+ item +:+ "]"))
        else Ok None
      else Ok None
  | Some _ => Ok None
  end.

(** ** [parse_file_structure]: the tree part *)

(** First loop: [child.parent = node] for every child of every node walked.
    The attribute store is keyed by the child's identity, taken to be its
    position in the tree.  That is exact for the nodes the parser creates
    one by one (declarations, statements, expressions, arguments, aliases).
    The context and operator objects ([Load], [Store], [Add], ...) are
    single objects that the parser puts in every place where they occur;
    their attribute is overwritten at each occurrence and is not followed
    here.  The program reads the attribute on function declarations only. *)
Definition set_parents (parents : gmap path node) (r : ref) : gmap path node :=
  foldl (fun m c => <[c.1 := r.2]> m) parents (child_refs r).

Definition assign_parents (tree : node) : gmap path node :=
  foldl set_parents ∅ (walk tree).

Definition is_ClassDef (n : node) : bool :=
  match n with
  | ClassDef _ _ _ _ _ => true
  | _ => false
  end.

Definition is_FunctionDef (n : node) : bool :=
  match n with
  | FunctionDef _ _ _ _ _ => true
  | _ => false
  end.

Definition is_AsyncFunctionDef (n : node) : bool :=
  match n with
  | AsyncFunctionDef _ _ _ _ _ => true
  | _ => false
  end.

(** [isinstance(getattr(node, 'parent', None), ast.ClassDef)] *)
Definition parent_is_ClassDef (parents : gmap path node) (r : ref) : bool :=
  match parents !! r.1 with
  | Some p => is_ClassDef p
  | None => false
  end.

(** A loop whose body may raise. *)
Fixpoint for_each {S A} (body : S -> A -> result S) (st : S) (xs : list A) : result S :=
  match xs with
  | [] => Ok st
  | x :: xs' =>
      let! st' := body st x in
      for_each body st' xs'
  end.

Record lists : Type := {
  l_imports : list string;
  l_classes : list class_info;
  l_functions : list function_info
}.

Section Extractor.

(** [inspect.cleandoc], which [ast.get_docstring] applies to the text. *)
Variable cleandoc : string -> string.

(** [ast.get_docstring] on a class or function with this body. *)
Definition get_docstring (body : list node) : option string :=
  match body with
  | Expr (Constant (CStr text)) :: _ => Some (cleandoc text)
  | _ => None
  end.

Definition arg_info (a : arg_t) : result param_info :=
  let! s := annotation_to_string (annotation a) in
  Ok {| p_name := arg a; p_annotation := s |}.

(** The dictionary built for a method and for a standalone function. *)
Definition function_info_of (name : string) (a : arguments) (body : list node)
    (returns : option node) : result function_info :=
  let doc := get_docstring body in
  let! ps := comprehension arg_info (args a) in
  let! ret := annotation_to_string returns in
  Ok {| f_name := name; f_docstring := doc; f_args := ps; f_returns := ret |}.

(** [for class_node in node.body: if isinstance(class_node, ast.FunctionDef)] *)
Fixpoint class_methods (body : list node) : result (list function_info) :=
  match body with
  | [] => Ok []
  | FunctionDef name a fbody _ returns :: rest =>
      let! m := function_info_of name a fbody returns in
      let! ms := class_methods rest in
      Ok (m :: ms)
  | _ :: rest => class_methods rest
  end.

(** The body of the second loop, for one node of the walk. *)
Definition visit (parents : gmap path node) (st : lists) (r : ref) : result lists :=
  match r.2 with
  | Import names =>
      Ok {| l_imports := l_imports st ++ map alias_name names;
            l_classes := l_classes st;
            l_functions := l_functions st |}
  | ImportFrom module names _ =>
      let module := default "" module in
      Ok {| l_imports := l_imports st
              ++ map (fun al => module +:+ "." +:+ alias_name al) names;
            l_classes := l_classes st;
            l_functions := l_functions st |}
  | ClassDef name _ _ body _ =>
      let doc := get_docstring body in
      let! ms := class_methods body in
      Ok {| l_imports := l_imports st;
            l_classes := l_classes st
              ++ [{| c_name := name; c_docstring := doc; c_methods := ms |}];
            l_functions := l_functions st |}
  | FunctionDef name a body _ returns =>
      if parent_is_ClassDef parents r then Ok st
      else
        let! f := function_info_of name a body returns in
        Ok {| l_imports := l_imports st;
              l_classes := l_classes st;
              l_functions := l_functions st ++ [f] |}
  | _ => Ok st
  end.

(** [parse_file_structure] from the parsed tree on. *)
Definition extract (n_lines : nat) (tree : node) : result structure :=
  let parents := assign_parents tree in
  let! st := for_each (visit parents)
               {| l_imports := []; l_classes := []; l_functions := [] |}
               (walk tree) in
  Ok {| lines_of_code := n_lines;
        imports := l_imports st;
        classes := l_classes st;
        functions := l_functions st |}.

End Extractor.

(** ** The report formatters *)

Definition nl : string := String (ascii_of_nat 10) EmptyString.

(** [sep.join(items)] *)
Definition join (sep : string) (items : list string) : string :=
  String.concat sep items.

(** Truth value of a docstring entry: [None] and the empty string are false. *)
Definition doc_text (d : option string) : string :=
  match d with
  | Some (String c s) => String c s
  | _ => "DocString not found"
  end.

Definition function_label (f : function_info) : string :=
  "Function '" +:+ f_name f +:+ "'".

Definition method_label (c : class_info) (m : function_info) : string :=
  "Method '" +:+ f_name m +:+ "' in class '" +:+ c_name c +:+ "'".

Definition get_docstring_report (data : structure) : string :=
  let class_lines := flat_map (fun c =>
      ("Class '" +:+ c_name c +:+ "': " +:+ doc_text (c_docstring c))
        :: map (fun m => method_label c m +:+ ": " +:+ doc_text (f_docstring m))
             (c_methods c))
    (classes data) in
  let function_lines :=
    map (fun f => function_label f +:+ ": " +:+ doc_text (f_docstring f))
      (functions data) in
  join (nl +:+ nl) (class_lines ++ function_lines).

(** [all(arg['annotation'] is not None for arg in func['args'])] and the
    return annotation. *)
Definition has_type_annotations (func : function_info) : bool :=
  let args_annotated := forallb (fun a => bool_decide (is_Some (p_annotation a))) (f_args func) in
  let return_annotation := bool_decide (is_Some (f_returns func)) in
  args_annotated && return_annotation.

(** The list [missing_annotations] that [check_type_annotations] builds. *)
Definition missing_annotations (data : structure) : list string :=
  map function_label
    (List.filter (fun f => negb (has_type_annotations f)) (functions data))
  ++ flat_map (fun c =>
       map (method_label c)
         (List.filter (fun m => negb (has_type_annotations m)) (c_methods c)))
     (classes data).

Definition check_type_annotations (data : structure) : string :=
  match missing_annotations data with
  | [] => "All functions and methods have type annotations."
  | items =>
      "Missing Type Annotations:" +:+ nl
        +:+ join nl (map (fun item => "- " +:+ item) items)
  end.

(** *** The two patterns of [check_naming_conventions]

    Both have the shape [^ set set* $]; [re.match] on such a pattern is
    modelled for any sequence of character sets, each taken once or
    starred.  [$] matches at the end of the string and before a newline
    that ends it. *)

Inductive quant : Type := Once | Star.

Definition pattern : Type := list ((ascii -> bool) * quant).

Definition at_end (s : string) : bool :=
  match s with
  | EmptyString => true
  | String c EmptyString => Ascii.eqb c (ascii_of_nat 10)
  | _ => false
  end.

Fixpoint re_match (p : pattern) (s : string) : bool :=
  match p with
  | [] => at_end s
  | (set, Once) :: p' =>
      match s with
      | String c s' => set c && re_match p' s'
      | EmptyString => false
      end
  | (set, Star) :: p' =>
      (fix star (s : string) : bool :=
         match s with
         | String c s' => (set c && star s') || re_match p' s
         | EmptyString => re_match p' s
         end) s
  end.

Definition in_range (lo hi : string) (c : ascii) : bool :=
  match lo, hi with
  | String l _, String h _ =>
      Nat.leb (nat_of_ascii l) (nat_of_ascii c) && Nat.leb (nat_of_ascii c) (nat_of_ascii h)
  | _, _ => false
  end.

Definition upper (c : ascii) : bool := in_range "A" "Z" c.
Definition lower (c : ascii) : bool := in_range "a" "z" c.
Definition digit (c : ascii) : bool := in_range "0" "9" c.
Definition underscore (c : ascii) : bool := Ascii.eqb c "_".

(** [^[A-Z][a-zA-Z0-9]*$] *)
Definition class_pattern : pattern :=
  [ (upper, Once); (fun c => lower c || upper c || digit c, Star) ].

(** [^[a-z_][a-z0-9_]*$] *)
Definition function_pattern : pattern :=
  [ (fun c => lower c || underscore c, Once);
    (fun c => lower c || digit c || underscore c, Star) ].

(** The lists [class_issues] and [func_issues]. *)
Definition class_issues (data : structure) : list string :=
  map (fun c => "Class '" +:+ c_name c +:+ "' does not follow CamelCase")
    (List.filter (fun c => negb (re_match class_pattern (c_name c))) (classes data)).

Definition func_issues (data : structure) : list string :=
  flat_map (fun c =>
      map (fun m => method_label c m +:+ " does not follow snake_case")
        (List.filter (fun m => negb (re_match function_pattern (f_name m))) (c_methods c)))
    (classes data)
  ++ map (fun f => function_label f +:+ " does not follow snake_case")
       (List.filter (fun f => negb (re_match function_pattern (f_name f))) (functions data)).

Definition bullets (items : list string) : list string :=
  map (fun item => "- " +:+ item) items.

Definition check_naming_conventions (data : structure) : string :=
  match class_issues data, func_issues data with
  | [], [] => "All names adhere to the specified naming convention."
  | cs, fs =>
      let report_lines :=
        (match cs with [] => [] | _ => "Classes:" :: bullets cs end)
        ++ (match fs with [] => [] | _ => "Functions/Methods:" :: bullets fs end) in
      "Naming Convention Issues:" +:+ nl +:+ join nl report_lines
  end.

Definition generate_file_structure_report (data : structure) : string :=
  let report :=
    ["Total lines of code: " +:+ pretty (lines_of_code data)]
    ++ (match imports data with
        | [] => ["No imports found."]
        | imps => "Imports:" :: bullets imps
        end)
    ++ (match classes data with
        | [] => ["No classes found."]
        | cs => "Classes:" :: bullets (map c_name cs)
        end)
    ++ (match functions data with
        | [] => ["No standalone functions found."]
        | fs => "Functions:" :: bullets (map f_name fs)
        end) in
  join nl report.

Definition generate_full_report (data : structure) : string :=
  let structure_report := generate_file_structure_report data in
  let docstring_report := get_docstring_report data in
  let type_annotation_report := check_type_annotations data in
  let naming_report := check_naming_conventions data in
  join nl
    [ "File Structure"; structure_report;
      nl +:+ "Doc Strings"; docstring_report;
      nl +:+ "Type Annotation Check"; type_annotation_report;
      nl +:+ "Naming Convention Check"; naming_report ].

(** ** Files, the console and [main]

    A file holds the text that reading it in text mode returns.  The
    console is the lines still to be typed and what has been printed. *)

Record world : Type := {
  files : gmap string string;
  stdin : list string;
  stdout : list string
}.

Definition newline : ascii := ascii_of_nat 10.

(** [file.readlines()]: every line keeps its newline; a last line without
    one is a line too. *)
Fixpoint readlines (content : string) : list string :=
  match content with
  | EmptyString => []
  | String c rest =>
      if Ascii.eqb c newline then String c EmptyString :: readlines rest
      else
        match readlines rest with
        | [] => [String c EmptyString]
        | l :: ls => String c l :: ls
        end
  end.

(** [str.isspace] on one character.  A character of the model is a code
    point below 256; the white space beyond that ([U+2003] and the like)
    has no counterpart in a string of the model. *)
Definition isspace (c : ascii) : bool :=
  let n := nat_of_ascii c in
  (Nat.leb 9 n && Nat.leb n 13) || (Nat.leb 28 n && Nat.leb n 32)
  || Nat.eqb n 133 || Nat.eqb n 160.

Fixpoint lstrip (s : string) : string :=
  match s with
  | String c s' => if isspace c then lstrip s' else s
  | EmptyString => EmptyString
  end.

Fixpoint rstrip (s : string) : string :=
  match s with
  | EmptyString => EmptyString
  | String c s' =>
      match rstrip s' with
      | EmptyString => if isspace c then EmptyString else String c EmptyString
      | t => String c t
      end
  end.

Definition strip (s : string) : string := rstrip (lstrip s).

Fixpoint has_slash (s : string) : bool :=
  match s with
  | EmptyString => false
  | String c s' => Ascii.eqb c "/" || has_slash s'
  end.

(** [os.path.basename]: what follows the last slash. *)
Fixpoint basename (s : string) : string :=
  match s with
  | EmptyString => EmptyString
  | String c s' =>
      if has_slash s' then basename s'
      else if Ascii.eqb c "/" then s' else s
  end.

Definition print (line : string) (w : world) : world :=
  {| files := files w; stdin := stdin w; stdout := stdout w ++ [line +:+ nl] |}.

(** [input(prompt)] *)
Definition input (prompt : string) (w : world) : world * result string :=
  let w' := {| files := files w; stdin := tail (stdin w);
               stdout := stdout w ++ [prompt] |} in
  match stdin w with
  | line :: _ => (w', Ok line)
  | [] => (w', Raise EOFError)
  end.

(** [open(name, 'w')] followed by [f.write(text)].  A name stands for one
    file and two names for two files: links between names, and the
    directories a name goes through, are not part of the store. *)
Definition write_file (name text : string) (w : world) : world :=
  {| files := <[name := text]> (files w); stdin := stdin w; stdout := stdout w |}.

Definition isfile (w : world) (filepath : string) : bool :=
  bool_decide (is_Some (files w !! filepath)).

(** [open(filepath, 'r')] followed by [read()], for a path under which
    either nothing is stored or a text that can be read.  A path that
    cannot be opened for another reason (a directory, missing permission)
    and a file whose bytes do not decode to a text are not in the store. *)
Definition open_read (w : world) (filepath : string) : result string :=
  match files w !! filepath with
  | Some content => Ok content
  | None => Raise FileNotFoundError
  end.

Definition read_file (w : world) (filepath : string) : result (list string) :=
  let! content := open_read w filepath in
  Ok (readlines content).

Section Program.

Variable cleandoc : string -> string.

(** [ast.parse]: the tree of a source text, or nothing when the text is not
    valid Python and the parser raises [SyntaxError].  The other ways in
    which the parser can fail ([ValueError] on a null character,
    [RecursionError] or [MemoryError] on a very deep nesting) are not
    represented. *)
Variable ast_parse : string -> option node.

Definition parse (content : string) : result node :=
  match ast_parse content with
  | Some tree => Ok tree
  | None => Raise SyntaxError
  end.

Definition parse_file_structure (w : world) (filepath : string) : result structure :=
  let! lines := read_file w filepath in
  let n_lines := List.length lines in
  let! content := open_read w filepath in
  let! tree := parse content in
  extract cleandoc n_lines tree.

Definition main (argv : list string) (w : world) : world * result unit :=
  let '(w1, asked) :=
    match argv with
    | [_; filepath] => (w, Ok filepath)
    | _ =>
        let '(w', line) := input "Enter the path to the Python file: " w in
        (w', let! l := line in Ok (strip l))
    end in
  match asked with
  | Raise e => (w1, Raise e)
  | Ok filepath =>
      if negb (isfile w1 filepath) then
        (print "File not found. Exiting." w1, Raise (SystemExit 1))
      else
        match parse_file_structure w1 filepath with
        | Raise e => (w1, Raise e)
        | Ok data =>
            let report := generate_full_report data in
            let filename := basename filepath in
            let report_filename := "style_report_" +:+ filename +:+ ".txt" in
            let w2 := write_file report_filename report w1 in
            (print ("Style report generated: " +:+ report_filename) w2, Ok tt)
        end
  end.

End Program.

(** ** The file test.py as the parser reads it *)

Definition no_arguments : arguments :=
  {| posonlyargs := []; args := []; vararg := None; kwonlyargs := [];
     kw_defaults := []; kwarg := None; defaults := [] |}.

Definition positional (params : list arg_t) : arguments :=
  {| posonlyargs := []; args := params; vararg := None; kwonlyargs := [];
     kw_defaults := []; kwarg := None; defaults := [] |}.

Definition plain (name : string) : arg_t :=
  {| arg := name; annotation := None |}.

Definition typed (name type : string) : arg_t :=
  {| arg := name; annotation := Some (Name type Load) |}.

Definition docstring_stmt (text : string) : node := Expr (Constant (CStr text)).

Definition Pass : node := Other "Pass" [].

Definition Return (value : node) : node := Other "Return" [("value", [value])].

Definition test_py : node :=
  Module
    [ Import [{| alias_name := "os"; asname := None |}];
      Import [{| alias_name := "sys"; asname := None |}];
      ImportFrom (Some "math")
        [{| alias_name := "pi"; asname := None |};
         {| alias_name := "sqrt"; asname := None |}] 0;
      ClassDef "ExampleClass" [] []
        [ docstring_stmt "This is an example class with a docstring.";
          FunctionDef "__init__" (positional [plain "self"; typed "value" "int"])
            [ docstring_stmt "Initialize with a value.";
              Other "Assign"
                [("targets", [Attribute (Name "self" Load) "value" Store]);
                 ("value", [Name "value" Load])] ]
            [] None;
          FunctionDef "multiply" (positional [plain "self"; typed "factor" "int"])
            [ docstring_stmt "Multiply value by a factor.";
              Return (Other "BinOp"
                [("left", [Attribute (Name "self" Load) "value" Load]);
                 ("op", [Other "Mult" []]);
                 ("right", [Name "factor" Load])]) ]
            [] (Some (Name "int" Load));
          FunctionDef "no_annotation_method" (positional [plain "self"])
            [Pass] [] None ]
        [];
      FunctionDef "standalone_function" (positional [typed "x" "float"])
        [ docstring_stmt "Calculate the square root of x.";
          Return (Other "Call"
            [("func", [Name "sqrt" Load]);
             ("args", [Name "x" Load]);
             ("keywords", [])]) ]
        [] (Some (Name "float" Load));
      FunctionDef "another_function_without_annotation" no_arguments
        [Pass] [] None ].

Definition test_py_lines : nat := 25.

(** ** Positions, parents and source order

    The notions the properties are stated with.  They are defined on the
    tree alone, without the queue of [walk] and without the attribute store
    of [assign_parents]. *)

(** The walk from a queue, with the fuel its nodes need. *)
Definition bfs (todo : list ref) : list ref := walk_from (queue_size todo) todo.

(** The node at a position. *)
Fixpoint node_at (tree : node) (p : path) : option node :=
  match p with
  | [] => Some tree
  | i :: q =>
      match node_at tree q with
      | Some n => iter_child_nodes n !! i
      | None => None
      end
  end.

Definition located (tree : node) (r : ref) : Prop := node_at tree r.1 = Some r.2.

(** The direct parent of the node at a position. *)
Definition parent_at (tree : node) (p : path) : option node :=
  match p with
  | [] => None
  | _ :: q => node_at tree q
  end.

(** All the nodes above a position, nearest first. *)
Fixpoint ancestors (tree : node) (p : path) : list node :=
  match p with
  | [] => []
  | _ :: q => opt_list (node_at tree q) ++ ancestors tree q
  end.

Definition depth (r : ref) : nat := List.length r.1.

(** Depth-first, parents before children: statements come out in the order
    of the source text, since the statement lists of a compound statement
    ([body], [handlers], [orelse], [finalbody]) are fields in that order. *)
Fixpoint dfs_from (fuel : nat) (r : ref) : list ref :=
  match fuel with
  | 0 => []
  | S fuel' => r :: flat_map (dfs_from fuel') (child_refs r)
  end.

Definition dfs (r : ref) : list ref := dfs_from (node_size r.2) r.

Definition preorder (tree : node) : list ref := dfs ([], tree).

(** ** Declarations and the entries made from them *)

(** The strings one import statement contributes. *)
Definition import_entries (n : node) : list string :=
  match n with
  | Import names => map alias_name names
  | ImportFrom module names _ =>
      map (fun al => default "" module +:+ "." +:+ alias_name al) names
  | _ => []
  end.

(** A function declaration that is not directly inside a class body. *)
Definition standalone (tree : node) (r : ref) : bool :=
  is_FunctionDef r.2
  && negb (match parent_at tree r.1 with
           | Some p => is_ClassDef p
           | None => false
           end).

Section Entries.

Variable cleandoc : string -> string.

(** [function_of n f]: [f] is the entry built from the function
    declaration [n]. *)
Inductive function_of : node -> function_info -> Prop :=
| function_of_def name a body decorator_list returns f :
    function_info_of cleandoc name a body returns = Ok f ->
    function_of (FunctionDef name a body decorator_list returns) f.

(** [class_of n c]: [c] is the entry built from the class declaration [n];
    its methods are the entries of the function declarations of the body,
    one for one. *)
Inductive class_of : node -> class_info -> Prop :=
| class_of_def name bases keywords body decorator_list ms :
    Forall2 function_of (List.filter is_FunctionDef body) ms ->
    class_of (ClassDef name bases keywords body decorator_list)
      {| c_name := name;
         c_docstring := get_docstring cleandoc body;
         c_methods := ms |}.

End Entries.

(** ** Inputs used in the examples *)

(** The annotation [a.b.c]. *)
Definition dotted_annotation : node :=
  Attribute (Attribute (Name "a" Load) "b" Load) "c" Load.

(** [def f(x: a.b.c): pass] *)
Definition dotted_py : node :=
  Module
    [ FunctionDef "f"
        (positional [{| arg := "x"; annotation := Some dotted_annotation |}])
        [Pass] [] None ].

Definition import_as (name : string) : alias :=
  {| alias_name := name; asname := None |}.

(** [from . import name] *)
Definition relative_import_py : node :=
  Module [ImportFrom None [import_as "name"] 1].

(** A class whose method defines a function of its own:
<<
class A:
    def m(self):
        def inner():
            pass
>> *)
Definition nested_py : node :=
  Module
    [ ClassDef "A" [] []
        [ FunctionDef "m" (positional [plain "self"])
            [ FunctionDef "inner" no_arguments [Pass] [] None ]
            [] None ]
        [] ].

(** A function defined inside another, followed by a top-level function:
<<
def f():
    def g():
        pass
def h():
    pass
>> *)
Definition order_py : node :=
  Module
    [ FunctionDef "f" no_arguments
        [ FunctionDef "g" no_arguments [Pass] [] None ] [] None;
      FunctionDef "h" no_arguments [Pass] [] None ].

(** The name a function declaration declares. *)
Definition declares (name : string) (n : node) : bool :=
  match n with
  | FunctionDef name' _ _ _ _ => String.eqb name' name
  | _ => false
  end.

Fixpoint string_forall (set : ascii -> bool) (s : string) : bool :=
  match s with
  | EmptyString => true
  | String c s' => set c && string_forall set s'
  end.

(** ** The naming rules in words *)

Definition alnum (c : ascii) : bool := lower c || upper c || digit c.

(** A name shaped [set1 set2*], possibly followed by one newline (which
    [$] lets through). *)
Definition shaped (first rest : ascii -> bool) (s : string) : Prop :=
  exists c body,
    (s = String c body \/ s = String c (body +:+ nl))
    /\ first c = true
    /\ string_forall rest body = true.

(** Starts with an upper-case letter, letters and digits after it. *)
Definition camel_case (s : string) : Prop := shaped upper alnum s.

(** Starts with a lower-case letter or an underscore; lower-case letters,
    digits and underscores after it. *)
Definition snake_case (s : string) : Prop :=
  shaped (fun c => lower c || underscore c)
         (fun c => lower c || digit c || underscore c) s.

(** A subsection of the naming report: nothing when it has no entries. *)
Definition subsection (title : string) (issues : list string) : list string :=
  match issues with
  | [] => []
  | _ => title :: bullets issues
  end.

Definition unannotated_function : function_info :=
  {| f_name := "f"; f_docstring := None; f_args := []; f_returns := None |}.

(** ** A run from file to report, and small worlds to try it on *)

(** The two steps of [main] between the path check and the output file. *)
Definition report_for (cleandoc : string -> string)
    (ast_parse : string -> option node) (w : world) (filepath : string) :
    result string :=
  let! data := parse_file_structure cleandoc ast_parse w filepath in
  Ok (generate_full_report data).

(** A parser that knows one program, [pass]. *)
Definition parse_pass_only (content : string) : option node :=
  if String.eqb content "pass" then Some (Module [Pass]) else None.

Definition keep_text (s : string) : string := s.

Definition broken_world : world :=
  {| files := {[ "bad.py" := "def (" ]}; stdin := [" bad.py "]; stdout := [] |}.

Definition small_world : world :=
  {| files := {[ "a.py" := "pass" ]}; stdin := []; stdout := [] |}.

(** ** Nesting, in words *)

Section Nesting.

Variable cleandoc : string -> string.

(** No class declaration anywhere above the position. *)
Definition no_class_above (tree : node) (p : path) : Prop :=
  Forall (fun a => is_ClassDef a = false) (ancestors tree p).

(** [f] is the entry of a function declaration of the tree that has no
    class among its ancestors. *)
Definition module_level (tree : node) (f : function_info) : Prop :=
  exists r, located tree r /\ function_of cleandoc r.2 f
            /\ no_class_above tree r.1.

(** [f] is the entry of a function declaration of the tree whose direct
    parent is not a class declaration. *)
Definition outside_class_body (tree : node) (f : function_info) : Prop :=
  exists r, located tree r /\ function_of cleandoc r.2 f
            /\ standalone tree r = true.

(** [m] is the entry of a function declaration whose direct parent is a
    class declaration that [c] is the entry of. *)
Definition member_of (tree : node) (c : class_info) (m : function_info) : Prop :=
  exists rc rm,
    located tree rc /\ located tree rm
    /\ class_of cleandoc rc.2 c /\ function_of cleandoc rm.2 m
    /\ tail rm.1 = rc.1 /\ parent_at tree rm.1 = Some rc.2.

Definition nesting_as_stated (tree : node) (data : structure) : Prop :=
  Forall (module_level tree) (functions data)
  /\ Forall (fun c => Forall (member_of tree c) (c_methods c)) (classes data).

Definition nesting_by_parent (tree : node) (data : structure) : Prop :=
  Forall (outside_class_body tree) (functions data)
  /\ Forall (fun c => Forall (member_of tree c) (c_methods c)) (classes data).

End Nesting.

(** The record of test.py when docstrings are kept as they are. *)
Definition test_py_data : structure :=
  Eval vm_compute in
    match extract keep_text test_py_lines test_py with
    | Ok data => data
    | Raise _ =>
        {| lines_of_code := 0; imports := []; classes := []; functions := [] |}
    end.

(** Only coroutines, at module level and in a class:
<<
async def fetch(url):
    pass
class Client:
    async def run(self):
        pass
>> *)
Definition fetch_decl : node :=
  AsyncFunctionDef "fetch" (positional [plain "url"]) [Pass] [] None.

Definition run_decl : node :=
  AsyncFunctionDef "run" (positional [plain "self"]) [Pass] [] None.

Definition async_py : node :=
  Module [ fetch_decl; ClassDef "Client" [] [] [run_decl] [] ].

Definition no_entries : lists :=
  {| l_imports := []; l_classes := []; l_functions := [] |}.

Definition async_py_data : structure :=
  {| lines_of_code := 5; imports := [];
     classes := [{| c_name := "Client"; c_docstring := None; c_methods := [] |}];
     functions := [] |}.

(** ** Orders of the entries, in words *)

Definition at_depth (k : nat) (r : ref) : bool := Nat.eqb (depth r) k.

Definition by_depth (x y : ref) : Prop := depth x <= depth y.

Section Orders.

Variable cleandoc : string -> string.

(** The entries of [classes] and of [functions] are those of the class
    declarations and of the standalone function declarations of the list
    [order], one for one and in its order.  ([class_of] fixes the order of
    a class's methods, [function_of] that of the parameters.) *)
Definition listed_in (order : list ref) (tree : node) (data : structure) : Prop :=
  Forall2 (fun r c => class_of cleandoc r.2 c)
    (List.filter (fun r => is_ClassDef r.2) order) (classes data)
  /\ Forall2 (fun r f => function_of cleandoc r.2 f)
       (List.filter (standalone tree) order) (functions data).

(** The parameters of an entry are those of the declaration's [args], in
    their order. *)
Definition parameters_in_order (n : node) (f : function_info) : Prop :=
  match n with
  | FunctionDef _ a _ _ _ => map p_name (f_args f) = map arg (args a)
  | _ => False
  end.

(** The methods of an entry are those of the function declarations of the
    class body, in their order. *)
Definition methods_in_order (n : node) (c : class_info) : Prop :=
  match n with
  | ClassDef _ _ _ body _ =>
      Forall2 (fun d m => function_of cleandoc d m /\ parameters_in_order d m)
        (List.filter is_FunctionDef body) (c_methods c)
  | _ => False
  end.

End Orders.

(** The name a class or function declaration declares. *)
Definition declared_name (n : node) : string :=
  match n with
  | ClassDef name _ _ _ _ => name
  | FunctionDef name _ _ _ _ => name
  | AsyncFunctionDef name _ _ _ _ => name
  | _ => ""
  end.

(** An annotation the renderer returns on. *)
Definition renderable (a : option node) : Prop :=
  exists s, annotation_to_string a = Ok s.

(** Every function declaration of the tree has renderable annotations on
    its [args] and on its return type. *)
Definition all_renderable (tree : node) : Prop :=
  forall r name a body decorator_list returns,
    r ∈ walk tree ->
    r.2 = FunctionDef name a body decorator_list returns ->
    Forall (fun x => renderable (annotation x)) (args a) /\ renderable returns.

(** ** Further notions: well-formed classes, line counts, the output name *)

(** The bases, keywords and decorators of a class are expressions: no
    function declaration sits there.  The parser only builds such trees. *)
Definition plain_class_parts (n : node) : bool :=
  match n with
  | ClassDef _ bases keywords _ decorator_list =>
      forallb (fun x => negb (is_FunctionDef x))
        (bases ++ keywords ++ decorator_list)
  | _ => true
  end.

Definition plain_classes (tree : node) : Prop :=
  forall r, r ∈ walk tree -> plain_class_parts r.2 = true.

(** The body of a class declaration. *)
Definition class_body (n : node) : list node :=
  match n with
  | ClassDef _ _ _ body _ => body
  | _ => []
  end.

Fixpoint count_newlines (s : string) : nat :=
  match s with
  | EmptyString => 0
  | String c s' => (if Ascii.eqb c newline then 1 else 0) + count_newlines s'
  end.

(** The text ends in a line that has no newline. *)
Fixpoint open_ended (s : string) : bool :=
  match s with
  | EmptyString => false
  | String c EmptyString => negb (Ascii.eqb c newline)
  | String _ s' => open_ended s'
  end.

Fixpoint string_exists (set : ascii -> bool) (s : string) : bool :=
  match s with
  | EmptyString => false
  | String c s' => set c || string_exists set s'
  end.

(** The name of the report file [main] writes for an input path. *)
Definition report_filename (filepath : string) : string :=
  "style_report_" +:+ basename filepath +:+ ".txt".

(** The path [main] works on: the second command-line word, or the line
    typed at the prompt with the blanks around it removed. *)
Definition requested (argv : list string) (w : world) : option string :=
  match argv with
  | [_; filepath] => Some filepath
  | _ =>
      match stdin w with
      | line :: _ => Some (strip line)
      | [] => None
      end
  end.

(** The world once the path is known: unchanged, or with the prompt
    printed and one line read. *)
Definition after_asking (argv : list string) (w : world) : world :=
  match argv with
  | [_; _] => w
  | _ => (input "Enter the path to the Python file: " w).1
  end.

(** A world that holds one file and nothing to type. *)
Definition one_file_world (name text : string) : world :=
  {| files := {[ name := text ]}; stdin := []; stdout := [] |}.

(** Decidable forms of [renderable] and [all_renderable], to run on a tree. *)
Definition renders (a : option node) : bool :=
  match annotation_to_string a with
  | Ok _ => true
  | Raise _ => false
  end.

Definition declaration_renders (n : node) : bool :=
  match n with
  | FunctionDef _ a _ _ returns =>
      forallb (fun x => renders (annotation x)) (args a) && renders returns
  | _ => true
  end.

(** An import inside a function, before a top-level import:
<<
def load():
    import json
import os
>> *)
Definition late_import_py : node :=
  Module
    [ FunctionDef "load" no_arguments [Import [import_as "json"]] [] None;
      Import [import_as "os"] ].


(** The kinds of node the second loop collects something from. *)
Definition collected (n : node) : bool :=
  match n with
  | Import _ | ImportFrom _ _ _ | ClassDef _ _ _ _ _ | FunctionDef _ _ _ _ _ => true
  | _ => false
  end.

Definition empty_record (n_lines : nat) : structure :=
  {| lines_of_code := n_lines; imports := []; classes := []; functions := [] |}.

(** The declaration of [multiply] in test.py. *)
Definition multiply_arguments : arguments :=
  positional [plain "self"; typed "factor" "int"].

Definition multiply_info : function_info :=
  {| f_name := "multiply"; f_docstring := None;
     f_args := [{| p_name := "self"; p_annotation := None |};
                {| p_name := "factor"; p_annotation := Some "int" |}];
     f_returns := Some "int" |}.

(** The record of [late_import_py]. *)
Definition late_import_data : structure :=
  {| lines_of_code := 3; imports := ["os"; "json"]; classes := [];
     functions := [{| f_name := "load"; f_docstring := None;
                      f_args := []; f_returns := None |}] |}.

(** Functions under the branches of a conditional, before a top-level one:
<<
if p:
    def a(): pass
elif q:
    def b(): pass
def c(): pass
>>
    The [elif] branch is a second [If] statement in the [orelse] field of
    the first. *)
Definition If (test : node) (body orelse : list node) : node :=
  Other "If" [("test", [test]); ("body", body); ("orelse", orelse)].

Definition branches_py : node :=
  Module
    [ If (Name "p" Load)
        [ FunctionDef "a" no_arguments [Pass] [] None ]
        [ If (Name "q" Load)
            [ FunctionDef "b" no_arguments [Pass] [] None ]
            [] ];
      FunctionDef "c" no_arguments [Pass] [] None ].

(** ** Parts of a record *)

(** The record with other lists of functions and classes. *)
Definition with_entries (data : structure) (fs : list function_info)
    (cs : list class_info) : structure :=
  {| lines_of_code := lines_of_code data; imports := imports data;
     classes := cs; functions := fs |}.

(** The class entry with other methods. *)
Definition with_methods (c : class_info) (ms : list function_info) : class_info :=
  {| c_name := c_name c; c_docstring := c_docstring c; c_methods := ms |}.

(** A class or function declaration. *)
Definition is_declaration (n : node) : bool :=
  is_FunctionDef n || is_AsyncFunctionDef n || is_ClassDef n.

(** The method [m] of [nested_py]. *)
Definition nested_method : node :=
  FunctionDef "m" (positional [plain "self"])
    [ FunctionDef "inner" no_arguments [Pass] [] None ] [] None.

(** * Properties *)

(** ** Sizes and fuel *)

Lemma sum_list_with_map {A B} (f : B -> nat) (g : A -> B) (l : list A) :
  sum_list_with f (map g l) = sum_list_with (fun x => f (g x)) l.
Proof. induction l; simpl; auto. Qed.

Lemma sum_list_with_flat_map {A B} (f : B -> nat) (g : A -> list B) (l : list A) :
  sum_list_with f (flat_map g l) = sum_list_with (fun x => sum_list_with f (g x)) l.
Proof. induction l; simpl; auto. rewrite sum_list_with_app. auto. Qed.

Lemma sum_list_with_opt_list {A} (f : A -> nat) (o : option A) :
  sum_list_with f (opt_list o) = match o with Some x => f x | None => 0 end.
Proof. destruct o; simpl; lia. Qed.

Lemma sum_list_with_pointwise {A} (f g : A -> nat) (l : list A) :
  (forall x, f x = g x) -> sum_list_with f l = sum_list_with g l.
Proof. intros H. induction l; simpl; auto. Qed.

Lemma sum_list_with_one {A} (l : list A) :
  sum_list_with (fun _ => 1) l = List.length l.
Proof. induction l; simpl; auto. Qed.

Lemma node_size_children (n : node) :
  node_size n = S (sum_list_with node_size (iter_child_nodes n)).
Proof.
  destruct n; cbn [node_size iter_child_nodes sum_list_with].
  all: rewrite ?sum_list_with_app, ?sum_list_with_map, ?sum_list_with_flat_map,
         ?sum_list_with_opt_list.
  all: try rewrite (sum_list_with_pointwise
                      (fun x : option node => sum_list_with node_size (opt_list x))
                      (fun o => match o with Some x => node_size x | None => 0 end))
         by (intros; apply sum_list_with_opt_list).
  all: cbn [node_size sum_list_with]; rewrite ?sum_list_with_one; lia.
Qed.

Lemma node_size_pos (n : node) : 0 < node_size n.
Proof. rewrite node_size_children. lia. Qed.

Lemma queue_size_app (a b : list ref) :
  queue_size (a ++ b) = queue_size a + queue_size b.
Proof. apply sum_list_with_app. Qed.

Lemma queue_size_imap (f : nat -> node -> ref) (l : list node) :
  (forall i c, (f i c).2 = c) ->
  queue_size (imap f l) = sum_list_with node_size l.
Proof.
  revert f. induction l as [|x l IH]; intros f Hf; [reflexivity|].
  rewrite imap_cons. unfold queue_size in *. cbn [sum_list_with].
  rewrite Hf, IH; [reflexivity|]. intros i c. apply Hf.
Qed.

Lemma queue_size_child_refs (r : ref) :
  S (queue_size (child_refs r)) = node_size r.2.
Proof.
  unfold child_refs. rewrite queue_size_imap by reflexivity.
  symmetry. apply node_size_children.
Qed.

Lemma queue_size_zero (q : list ref) : queue_size q = 0 -> q = [].
Proof.
  destruct q as [|r q]; [reflexivity|]. unfold queue_size. cbn [sum_list_with].
  pose proof (node_size_pos r.2). lia.
Qed.

Lemma walk_from_fuel (f1 f2 : nat) (q : list ref) :
  queue_size q <= f1 -> queue_size q <= f2 -> walk_from f1 q = walk_from f2 q.
Proof.
  revert f2 q. induction f1 as [|f1 IH]; intros f2 q H1 H2.
  - assert (q = []) as -> by (apply queue_size_zero; lia).
    destruct f2; reflexivity.
  - destruct q as [|r rest]; [destruct f2; reflexivity|].
    pose proof (queue_size_child_refs r) as Hc.
    unfold queue_size in H1, H2. cbn [sum_list_with] in H1, H2.
    destruct f2 as [|f2]; [pose proof (node_size_pos r.2); lia|].
    cbn [walk_from]. f_equal.
    apply IH; rewrite queue_size_app; unfold queue_size at 1; lia.
Qed.

Lemma bfs_nil : bfs [] = [].
Proof. reflexivity. Qed.

Lemma bfs_cons (r : ref) (rest : list ref) :
  bfs (r :: rest) = r :: bfs (rest ++ child_refs r).
Proof.
  unfold bfs. pose proof (queue_size_child_refs r) as Hc.
  assert (Hs : queue_size (r :: rest) = S (queue_size (rest ++ child_refs r))).
  { rewrite queue_size_app. unfold queue_size at 1. cbn [sum_list_with].
    fold (queue_size rest). lia. }
  rewrite Hs. reflexivity.
Qed.

Lemma walk_bfs (tree : node) : walk tree = bfs [([], tree)].
Proof.
  unfold walk, bfs. apply walk_from_fuel; unfold queue_size; simpl; lia.
Qed.

(** Induction along the run of the queue. *)
Lemma bfs_ind (P : list ref -> list ref -> Prop) :
  P [] [] ->
  (forall r rest,
     P (rest ++ child_refs r) (bfs (rest ++ child_refs r)) ->
     P (r :: rest) (r :: bfs (rest ++ child_refs r))) ->
  forall q, P q (bfs q).
Proof.
  intros Hnil Hcons q.
  remember (queue_size q) as k eqn:Hk.
  revert q Hk. induction k as [k IH] using lt_wf_ind. intros q Hk.
  destruct q as [|r rest]; [exact Hnil|].
  rewrite bfs_cons. apply Hcons.
  apply (IH (queue_size (rest ++ child_refs r))); [|reflexivity].
  subst k. pose proof (queue_size_child_refs r).
  rewrite queue_size_app. unfold queue_size at 3. cbn [sum_list_with].
  fold (queue_size rest). lia.
Qed.

(** ** What the walk visits *)

Lemma child_refs_spec (r c : ref) :
  c ∈ child_refs r <->
  exists i, c.1 = i :: r.1 /\ iter_child_nodes r.2 !! i = Some c.2.
Proof.
  unfold child_refs. rewrite elem_of_lookup_imap. split.
  - intros (i & x & -> & Hx). exists i. auto.
  - intros (i & H1 & H2). exists i, c.2. split; [|exact H2].
    destruct c as [p n]. simpl in *. now subst.
Qed.

Lemma child_refs_located (tree : node) (r c : ref) :
  located tree r -> c ∈ child_refs r -> located tree c.
Proof.
  unfold located. intros Hr (i & Hp & Hc)%child_refs_spec.
  rewrite Hp. cbn [node_at]. now rewrite Hr.
Qed.

Lemma bfs_located (tree : node) (q : list ref) :
  Forall (located tree) q -> Forall (located tree) (bfs q).
Proof.
  apply (bfs_ind (fun q out => Forall (located tree) q -> Forall (located tree) out)).
  - auto.
  - intros r rest IH Hq. inversion Hq as [|? ? Hr Hrest]; subst.
    constructor; [exact Hr|]. apply IH. apply Forall_app. split; [exact Hrest|].
    apply Forall_forall. intros c Hc. eapply child_refs_located; eauto.
Qed.

(** Every node the walk yields was in the queue at the start or is a child
    of a node the walk yields. *)
Lemma bfs_origin (q : list ref) (c : ref) :
  c ∈ bfs q -> c ∈ q \/ exists r, r ∈ bfs q /\ c ∈ child_refs r.
Proof.
  revert c.
  apply (bfs_ind (fun q out =>
    forall c, c ∈ out -> c ∈ q \/ exists r, r ∈ out /\ c ∈ child_refs r)).
  - intros c Hc. now left.
  - intros r rest IH c [->|Hc]%elem_of_cons.
    + left. apply elem_of_cons. now left.
    + destruct (IH c Hc) as [[H|H]%elem_of_app|(r' & H1 & H2)].
      * left. apply elem_of_cons. now right.
      * right. exists r. split; [apply elem_of_cons; now left|exact H].
      * right. exists r'. split; [apply elem_of_cons; now right|exact H2].
Qed.

Lemma bfs_queue (q : list ref) (r : ref) : r ∈ q -> r ∈ bfs q.
Proof.
  revert r. apply (bfs_ind (fun q out => forall r, r ∈ q -> r ∈ out)).
  - auto.
  - intros r rest IH c [->|Hc]%elem_of_cons; apply elem_of_cons; [now left|].
    right. apply IH. apply elem_of_app. now left.
Qed.

Lemma bfs_children (q : list ref) (r c : ref) :
  r ∈ bfs q -> c ∈ child_refs r -> c ∈ bfs q.
Proof.
  revert r c.
  apply (bfs_ind (fun q out => forall r c, r ∈ out -> c ∈ child_refs r -> c ∈ out)).
  - intros r c Hr. inversion Hr.
  - intros r rest IH r' c [->|Hr]%elem_of_cons Hc; apply elem_of_cons; right.
    + apply bfs_queue. apply elem_of_app. now right.
    + eapply IH; eauto.
Qed.

(** The walk yields exactly the nodes of the tree, each at its position. *)
Lemma walk_located (tree : node) (r : ref) : r ∈ walk tree -> located tree r.
Proof.
  rewrite walk_bfs. intros Hr.
  assert (H : Forall (located tree) (bfs [([], tree)])).
  { apply bfs_located. constructor; [reflexivity|constructor]. }
  rewrite Forall_forall in H. auto.
Qed.

Lemma walk_complete (tree : node) (p : path) (n : node) :
  node_at tree p = Some n -> (p, n) ∈ walk tree.
Proof.
  rewrite walk_bfs. revert n. induction p as [|i q IH]; intros n Hn.
  - injection Hn as <-. apply bfs_queue. apply list_elem_of_singleton. reflexivity.
  - cbn [node_at] in Hn. destruct (node_at tree q) as [m|] eqn:Hm; [|discriminate].
    apply (bfs_children _ (q, m)); [now apply IH|].
    apply child_refs_spec. exists i. auto.
Qed.

(** ** The parent attribute *)

Lemma set_parents_lookup (m : gmap path node) (r : ref) (k : path) (n : node) :
  set_parents m r !! k = Some n ->
  m !! k = Some n \/ (n = r.2 /\ exists c, c ∈ child_refs r /\ c.1 = k).
Proof.
  unfold set_parents. generalize (child_refs r) as cs.
  intros cs. revert m. induction cs as [|c cs IH] using rev_ind; intros m H.
  - now left.
  - rewrite foldl_snoc in H. destruct (decide (c.1 = k)) as [Heq|Hne].
    + rewrite Heq, lookup_insert_eq in H. injection H as <-.
      right. split; [reflexivity|]. exists c. split; [|exact Heq].
      apply elem_of_app. right. apply list_elem_of_singleton. reflexivity.
    + rewrite lookup_insert_ne in H by exact Hne.
      destruct (IH m H) as [H'|(-> & c' & Hc' & Hk)]; [now left|].
      right. split; [reflexivity|]. exists c'. split; [|exact Hk].
      apply elem_of_app. now left.
Qed.

Lemma set_parents_keeps (m : gmap path node) (r : ref) (k : path) :
  is_Some (m !! k) -> is_Some (set_parents m r !! k).
Proof.
  unfold set_parents. generalize (child_refs r) as cs.
  intros cs. revert m. induction cs as [|c cs IH] using rev_ind; intros m H.
  - exact H.
  - rewrite foldl_snoc. destruct (decide (c.1 = k)) as [Heq|Hne].
    + rewrite Heq, lookup_insert_eq. eauto.
    + rewrite lookup_insert_ne by exact Hne. now apply IH.
Qed.

Lemma set_parents_sets (m : gmap path node) (r c : ref) :
  c ∈ child_refs r -> is_Some (set_parents m r !! c.1).
Proof.
  unfold set_parents. generalize (child_refs r) as cs.
  intros cs. revert m. induction cs as [|c' cs IH] using rev_ind; intros m H.
  - inversion H.
  - rewrite foldl_snoc. destruct (decide (c'.1 = c.1)) as [Heq|Hne].
    + rewrite Heq, lookup_insert_eq. eauto.
    + rewrite lookup_insert_ne by exact Hne. apply IH.
      apply elem_of_app in H as [H|H]; [exact H|].
      apply list_elem_of_singleton in H. now subst.
Qed.

Lemma parents_sound (tree : node) (w : list ref) (m : gmap path node) :
  Forall (located tree) w ->
  (forall k n, m !! k = Some n -> parent_at tree k = Some n) ->
  forall k n, foldl set_parents m w !! k = Some n -> parent_at tree k = Some n.
Proof.
  induction w as [|r w IH] using rev_ind; intros Hw Hm k n H; [now apply Hm|].
  rewrite foldl_snoc in H. apply Forall_app in Hw as [Hw Hr].
  inversion Hr as [|? ? Hloc _]; subst.
  apply set_parents_lookup in H as [H|(-> & c & Hc & <-)].
  - now apply (IH Hw Hm).
  - apply child_refs_spec in Hc as (i & -> & _). exact Hloc.
Qed.

Lemma parents_complete (w : list ref) (m : gmap path node) (r c : ref) :
  r ∈ w -> c ∈ child_refs r -> is_Some (foldl set_parents m w !! c.1).
Proof.
  induction w as [|r' w IH] using rev_ind; intros Hr Hc; [inversion Hr|].
  rewrite foldl_snoc. apply elem_of_app in Hr as [Hr|Hr].
  - apply set_parents_keeps. now apply IH.
  - apply list_elem_of_singleton in Hr. subst r'. now apply set_parents_sets.
Qed.

(** The attribute the first loop stores on a node of the walk is the node
    directly above it; the root has none. *)
Lemma assign_parents_lookup (tree : node) (r : ref) :
  r ∈ walk tree -> assign_parents tree !! r.1 = parent_at tree r.1.
Proof.
  intros Hr. unfold assign_parents.
  assert (Hsound : forall k n,
    foldl set_parents ∅ (walk tree) !! k = Some n -> parent_at tree k = Some n).
  { apply parents_sound.
    - apply Forall_forall. apply walk_located.
    - intros k n H. rewrite lookup_empty in H. discriminate. }
  pose proof Hr as Hr'. rewrite walk_bfs in Hr'.
  apply bfs_origin in Hr' as [Hroot|(r' & Hr' & Hc)].
  - apply list_elem_of_singleton in Hroot. subst r. cbn.
    destruct (foldl set_parents ∅ (walk tree) !! []) as [n|] eqn:E; [|exact E].
    apply Hsound in E. discriminate.
  - rewrite <- walk_bfs in Hr'.
    destruct (parents_complete (walk tree) ∅ r' r Hr' Hc) as [n Hn].
    rewrite Hn. symmetry. now apply Hsound.
Qed.

(** ** The second loop *)

Section Loop.

Variable cleandoc : string -> string.

Lemma comprehension_Forall2 {A B} (f : A -> result B) (xs : list A) (ys : list B) :
  comprehension f xs = Ok ys <-> Forall2 (fun x y => f x = Ok y) xs ys.
Proof.
  revert ys. induction xs as [|x xs IH]; intros ys; cbn [comprehension].
  - split; [intros [= <-]; constructor|intros H; inversion H; reflexivity].
  - split.
    + destruct (f x) as [y|e] eqn:Hy; [|discriminate]. cbn [bind].
      destruct (comprehension f xs) as [ys'|e] eqn:Hys; [|discriminate].
      cbn [bind]. intros [= <-]. constructor; [exact Hy|]. now apply IH.
    + intros H. inversion H as [|? y ? ys' Hy Hys]; subst.
      rewrite Hy. cbn [bind]. apply IH in Hys. rewrite Hys. reflexivity.
Qed.

(** What a successful [function_info_of] returns, field by field. *)
Lemma function_info_of_Ok name a body returns f :
  function_info_of cleandoc name a body returns = Ok f ->
  f_name f = name
  /\ f_docstring f = get_docstring cleandoc body
  /\ Forall2 (fun x p => p_name p = arg x
                 /\ annotation_to_string (annotation x) = Ok (p_annotation p))
       (args a) (f_args f)
  /\ annotation_to_string returns = Ok (f_returns f).
Proof.
  unfold function_info_of.
  destruct (comprehension arg_info (args a)) as [ps|e] eqn:Hps; [|discriminate].
  cbn [bind]. destruct (annotation_to_string returns) as [ret|e]; [|discriminate].
  cbn [bind]. intros [= <-]. cbn. repeat split.
  apply comprehension_Forall2 in Hps.
  eapply Forall2_impl; [exact Hps|]. intros x p. unfold arg_info.
  destruct (annotation_to_string (annotation x)) as [s|e]; [|discriminate].
  cbn [bind]. intros [= <-]. split; reflexivity.
Qed.

Lemma class_methods_Ok (body : list node) (ms : list function_info) :
  class_methods cleandoc body = Ok ms <->
  Forall2 (function_of cleandoc) (List.filter is_FunctionDef body) ms.
Proof.
  revert ms. induction body as [|n body IH]; intros ms.
  - cbn. split; [intros [= <-]; constructor|intros H; inversion H; reflexivity].
  - destruct n; cbn [class_methods List.filter is_FunctionDef]; try apply IH.
    split.
    + destruct (function_info_of _ _ _ _ _) as [m|e] eqn:Hm; [|discriminate].
      cbn [bind].
      destruct (class_methods cleandoc body) as [ms'|e] eqn:Hms; [|discriminate].
      cbn [bind]. intros [= <-]. constructor; [now constructor|]. now apply IH.
    + intros H. inversion H as [|? m ? ms' Hm Hms]; subst.
      inversion Hm; subst. apply IH in Hms.
      match goal with E : function_info_of _ _ _ _ _ = _ |- _ => rewrite E end.
      cbn [bind]. rewrite Hms. reflexivity.
Qed.

(** The three lists after the loop has run over any list of nodes: the
    entries are those of the import statements, of the class declarations
    and of the function declarations whose [parent] attribute is not a
    class, each in the order of the list. *)
Lemma for_each_visit (parents : gmap path node) (l : list ref) (st st' : lists) :
  for_each (visit cleandoc parents) st l = Ok st' ->
  l_imports st' = l_imports st ++ flat_map (fun r => import_entries r.2) l
  /\ exists cs fs,
      l_classes st' = l_classes st ++ cs
      /\ l_functions st' = l_functions st ++ fs
      /\ Forall2 (fun r c => class_of cleandoc r.2 c)
           (List.filter (fun r => is_ClassDef r.2) l) cs
      /\ Forall2 (fun r f => function_of cleandoc r.2 f)
           (List.filter (fun r => is_FunctionDef r.2
                                  && negb (parent_is_ClassDef parents r)) l) fs.
Proof.
  revert st. induction l as [|r l IH]; intros st H.
  - injection H as <-. rewrite !app_nil_r. split; [reflexivity|].
    exists [], []. rewrite !app_nil_r. repeat split; constructor.
  - cbn [for_each] in H.
    destruct (visit cleandoc parents st r) as [st1|e] eqn:Hv; [|discriminate].
    cbn [bind] in H. destruct (IH _ H) as (Hi & cs & fs & Hc & Hf & Hcs & Hfs).
    clear IH H. unfold visit in Hv. cbn [flat_map List.filter].
    destruct r as [p n]. cbn [snd] in *.
    destruct n; cbn [import_entries is_ClassDef is_FunctionDef andb] in *.
    all: try (injection Hv as <-; split; [rewrite Hi, ?app_nil_l; reflexivity|];
              exists cs, fs; auto).
    + injection Hv as <-. cbn in *. split; [now rewrite Hi, app_assoc|].
      exists cs, fs. auto.
    + injection Hv as <-. cbn in *. split; [now rewrite Hi, app_assoc|].
      exists cs, fs. auto.
    + destruct (class_methods cleandoc body) as [ms|e] eqn:Hms; [|discriminate].
      cbn [bind] in Hv. injection Hv as <-. cbn in *. split; [exact Hi|].
      eexists (_ :: cs), fs. rewrite Hc, <- app_assoc. repeat split; auto.
      constructor; [|exact Hcs]. constructor. now apply class_methods_Ok.
    + destruct (parent_is_ClassDef parents _) eqn:Hp.
      * injection Hv as <-. split; [exact Hi|]. exists cs, fs. auto.
      * destruct (function_info_of _ _ _ _ _) as [f|e] eqn:Hfi; [|discriminate].
        cbn [bind] in Hv. injection Hv as <-. cbn in *. split; [exact Hi|].
        exists cs, (f :: fs). rewrite Hf, <- app_assoc. repeat split; auto.
        constructor; [|exact Hfs]. now constructor.
Qed.

Lemma parent_is_ClassDef_walk (tree : node) (r : ref) :
  r ∈ walk tree ->
  is_FunctionDef r.2 && negb (parent_is_ClassDef (assign_parents tree) r)
  = standalone tree r.
Proof.
  intros Hr. unfold standalone, parent_is_ClassDef.
  now rewrite assign_parents_lookup.
Qed.

Lemma filter_pointwise {A} (f g : A -> bool) (l : list A) :
  (forall x, x ∈ l -> f x = g x) -> List.filter f l = List.filter g l.
Proof.
  intros H. apply List.filter_ext_in. intros x Hx. apply H.
  now apply list_elem_of_In.
Qed.

(** The record [extract] returns, in terms of the tree alone. *)
Lemma extract_Ok (n_lines : nat) (tree : node) (data : structure) :
  extract cleandoc n_lines tree = Ok data ->
  lines_of_code data = n_lines
  /\ imports data = flat_map (fun r => import_entries r.2) (walk tree)
  /\ Forall2 (fun r c => class_of cleandoc r.2 c)
       (List.filter (fun r => is_ClassDef r.2) (walk tree)) (classes data)
  /\ Forall2 (fun r f => function_of cleandoc r.2 f)
       (List.filter (standalone tree) (walk tree)) (functions data).
Proof.
  unfold extract.
  destruct (for_each _ _ _) as [st|e] eqn:Hst; [|discriminate].
  cbn [bind]. intros [= <-]. cbn.
  apply for_each_visit in Hst as (Hi & cs & fs & Hc & Hf & Hcs & Hfs).
  cbn in Hi, Hc, Hf. rewrite Hi, Hc, Hf. repeat split; [exact Hcs|].
  erewrite <- filter_pointwise; [exact Hfs|].
  intros r Hr. now apply parent_is_ClassDef_walk.
Qed.

End Loop.

(** ** The type-annotation report of test.py *)

(** C1, as the program behaves: on test.py the type-annotation report lists
    four entries, not two.  [self] is a parameter without an annotation, so
    [__init__] (which has no return annotation either) and [multiply] are
    listed next to [no_annotation_method] and
    [another_function_without_annotation]; only [standalone_function] is
    not.  Standalone functions come first, then the methods. *)
Theorem test_py_type_annotation_report (cleandoc : string -> string) :
  exists data,
    extract cleandoc test_py_lines test_py = Ok data
    /\ missing_annotations data =
         [ "Function 'another_function_without_annotation'";
           "Method '__init__' in class 'ExampleClass'";
           "Method 'multiply' in class 'ExampleClass'";
           "Method 'no_annotation_method' in class 'ExampleClass'" ]
    /\ check_type_annotations data =
         "Missing Type Annotations:" +:+ nl
         +:+ "- Function 'another_function_without_annotation'" +:+ nl
         +:+ "- Method '__init__' in class 'ExampleClass'" +:+ nl
         +:+ "- Method 'multiply' in class 'ExampleClass'" +:+ nl
         +:+ "- Method 'no_annotation_method' in class 'ExampleClass'".
Proof.
  eexists. split; [vm_compute; reflexivity|]. split; vm_compute; reflexivity.
Qed.

(** C1 as stated fails: whatever [cleandoc] is, the entries of the report
    for test.py are not exactly [no_annotation_method] and
    [another_function_without_annotation]; [__init__], which has no return
    annotation, is among them. *)
Lemma test_py_report_not_two_entries :
  ~ exists cleandoc data,
      extract cleandoc test_py_lines test_py = Ok data
      /\ forall item,
           item ∈ missing_annotations data <->
           item = "Method 'no_annotation_method' in class 'ExampleClass'"
           \/ item = "Function 'another_function_without_annotation'".
Proof.
  intros (cleandoc & data & Hdata & Hitems).
  vm_compute in Hdata. injection Hdata as <-.
  destruct (Hitems "Method '__init__' in class 'ExampleClass'") as [H _].
  destruct H as [H|H]; [|discriminate|discriminate].
  vm_compute. apply elem_of_cons. right. apply elem_of_cons. left. reflexivity.
Qed.

(** ** Rendering annotations *)

(** C2 fails on the code: [annotation_to_string] is not total.  For the
    annotation [a.b.c] the [Attribute] branch reads [annotation.value.id]
    although [annotation.value] is itself an [Attribute], and raises
    [AttributeError]; the exception leaves [parse_file_structure] as well,
    so a file with [def f(x: a.b.c): pass] gets no record. *)
Theorem annotation_to_string_dotted_raises (cleandoc : string -> string) :
  annotation_to_string (Some dotted_annotation) = Raise AttributeError
  /\ extract cleandoc 1 dotted_py = Raise AttributeError.
Proof. split; vm_compute; reflexivity. Qed.

(** Where the renderer raises: on an attribute whose base is not a plain
    name, and on a subscript with a plain-name base whose slice object has
    no [value] attribute.  Everywhere else it returns. *)
Lemma annotation_to_string_raises (a : option node) (e : exn) :
  annotation_to_string a = Raise e <->
  e = AttributeError
  /\ ((exists v attr ctx, a = Some (Attribute v attr ctx) /\ hasattr_id v = false)
      \/ (exists v s ctx, a = Some (Subscript v s ctx) /\ hasattr_id v = true
                          /\ getattr_value s = Raise AttributeError)).
Proof.
  split.
  - destruct a as [[]|]; cbn; try discriminate.
    + destruct value; cbn; try discriminate; intros [= <-];
        (split; [reflexivity|left; eauto]).
    + destruct value; cbn; try discriminate.
      destruct (getattr_value slice) as [[n|]|e'] eqn:Hs; cbn; try discriminate.
      * destruct n; cbn; discriminate.
      * intros [= <-]. assert (e' = AttributeError) as ->.
        { destruct slice; cbn in Hs; try discriminate; try congruence.
          destruct (lookup_field "value" fields) as [[|? [|]]|]; congruence. }
        split; [reflexivity|]. right. eauto 10.
  - intros [-> [(v & attr & ctx & -> & Hv)|(v & s & ctx & -> & Hv & Hs)]]; cbn.
    + destruct v; cbn in *; try discriminate; reflexivity.
    + rewrite Hv, Hs. reflexivity.
Qed.

(** ** Imports *)

(** C3, as the program behaves: an import statement appends one string
    for each name it imports, after what has been collected so far and
    wherever the statement stands.  [import pkg] appends ["pkg"], [from pkg
    import name] appends ["pkg.name"], and [from . import name], whose
    module is absent, appends [".name"]: the empty module name followed by
    the dot.  The alias after [as] and the number of leading dots play no
    part, and the classes and functions collected so far stay as they are.
    So [imports] holds these strings for all the import statements of the
    tree, in the order of the walk. *)
Theorem import_rendering (cleandoc : string -> string) (n_lines level : nat)
    (pkg name : string) (asn : option string)
    (parents : gmap path node) (st : lists) (p : path) (names : list alias)
    (tree : node) (data : structure) :
  (exists data,
     extract cleandoc n_lines
       (Module [Import [{| alias_name := pkg; asname := asn |}]]) = Ok data
     /\ imports data = [pkg])
  /\ (exists data,
       extract cleandoc n_lines
         (Module [ImportFrom (Some pkg) [{| alias_name := name; asname := asn |}] level])
       = Ok data
       /\ imports data = [pkg +:+ "." +:+ name])
  /\ (exists data,
       extract cleandoc n_lines
         (Module [ImportFrom None [{| alias_name := name; asname := asn |}] level])
       = Ok data
       /\ imports data = ["." +:+ name])
  /\ visit cleandoc parents st (p, Import names)
     = Ok {| l_imports := l_imports st ++ map alias_name names;
             l_classes := l_classes st; l_functions := l_functions st |}
  /\ visit cleandoc parents st (p, ImportFrom (Some pkg) names level)
     = Ok {| l_imports :=
               l_imports st ++ map (fun al => pkg +:+ "." +:+ alias_name al) names;
             l_classes := l_classes st; l_functions := l_functions st |}
  /\ visit cleandoc parents st (p, ImportFrom None names level)
     = Ok {| l_imports := l_imports st ++ map (fun al => "." +:+ alias_name al) names;
             l_classes := l_classes st; l_functions := l_functions st |}
  /\ (extract cleandoc n_lines tree = Ok data ->
      imports data
      = flat_map (fun r =>
          match r.2 with
          | Import names => map alias_name names
          | ImportFrom (Some pkg) names _ =>
              map (fun al => pkg +:+ "." +:+ alias_name al) names
          | ImportFrom None names _ => map (fun al => "." +:+ alias_name al) names
          | _ => []
          end) (walk tree)).
Proof.
  do 3 (split; [eexists; (split; [vm_compute; reflexivity|reflexivity])|]).
  do 3 (split; [reflexivity|]).
  intros (_ & Hi & _ & _)%extract_Ok. rewrite Hi. apply flat_map_ext.
  intros [q n]. destruct n as [| |[m|] ? ?| | | | | | | | | | | | |]; reflexivity.
Qed.

(** C3 as stated fails: [from . import name] does not give the bare
    ["name"]. *)
Lemma relative_import_keeps_dot :
  ~ exists cleandoc data,
      extract cleandoc 1 relative_import_py = Ok data
      /\ imports data = ["name"].
Proof.
  intros (cleandoc & data & Hdata & Himports).
  vm_compute in Hdata. injection Hdata as <-. discriminate.
Qed.

Lemma import_rendering_witness :
  extract keep_text 3 late_import_py = Ok late_import_data
  /\ imports late_import_data = ["os"; "json"]
  /\ visit keep_text ∅ no_entries ([0], Import [import_as "os"; import_as "sys"])
     = Ok {| l_imports := ["os"; "sys"]; l_classes := []; l_functions := [] |}.
Proof.
  assert (H : extract keep_text 3 late_import_py = Ok late_import_data)
    by (vm_compute; reflexivity).
  destruct (import_rendering keep_text 3 0 "pkg" "name" None ∅ no_entries [0]
              [import_as "os"; import_as "sys"] late_import_py late_import_data)
    as (_ & _ & _ & Hv & _ & _ & Hall).
  split; [exact H|]. split; [exact (Hall H)|exact Hv].
Defined.

(** ** Full annotation *)

Lemma forallb_annotated (ps : list param_info) :
  forallb (fun a => bool_decide (is_Some (p_annotation a))) ps = true
  <-> Forall (fun a => p_annotation a <> None) ps.
Proof.
  rewrite forallb_forall, Forall_forall. split; intros H a Ha.
  - apply list_elem_of_In in Ha. apply H in Ha. apply bool_decide_eq_true in Ha.
    destruct Ha as [x Hx]. congruence.
  - apply list_elem_of_In in Ha. apply H in Ha. apply bool_decide_eq_true.
    destruct (p_annotation a); [eauto|congruence].
Qed.

(** ** Naming conventions *)

Lemma at_end_spec (s : string) : at_end s = true <-> s = "" \/ s = nl.
Proof.
  destruct s as [|c [|c' s]]; cbn.
  - split; auto.
  - rewrite Ascii.eqb_eq. split.
    + intros ->. right. reflexivity.
    + intros [H|H]; [discriminate|]. now injection H.
  - split; [discriminate|]. intros [H|H]; discriminate.
Qed.

Lemma re_match_star (set : ascii -> bool) (p : pattern) (s : string) :
  re_match ((set, Star) :: p) s =
  match s with
  | String c s' => (set c && re_match ((set, Star) :: p) s') || re_match p s
  | EmptyString => re_match p s
  end.
Proof. destruct s; reflexivity. Qed.

Lemma re_match_star_end (set : ascii -> bool) (s : string) :
  re_match [(set, Star)] s = true <->
  exists body, string_forall set body = true /\ (s = body \/ s = body +:+ nl).
Proof.
  induction s as [|c s IH]; rewrite re_match_star.
  - cbn. split; [|reflexivity]. intros _. exists "". split; [reflexivity|now left].
  - rewrite orb_true_iff, andb_true_iff, IH. cbn [re_match]. rewrite at_end_spec.
    split.
    + intros [[Hc (body & Hbody & Hs)]|[H|H]]; [| discriminate |].
      * exists (String c body). cbn. rewrite Hc, Hbody. split; [reflexivity|].
        destruct Hs as [->| ->]; [now left|now right].
      * exists "". split; [reflexivity|]. right. exact H.
    + intros ([|c' body] & Hbody & Hs).
      * right. destruct Hs as [Hs|Hs]; [discriminate|]. right. exact Hs.
      * left. cbn in Hbody. apply andb_true_iff in Hbody as [Hc Hbody].
        assert (c = c' /\ (s = body \/ s = body +:+ nl)) as [-> Hs'].
        { destruct Hs as [Hs|Hs]; injection Hs as -> ->; auto. }
        split; [exact Hc|]. exists body. auto.
Qed.

Lemma re_match_shaped (first rest : ascii -> bool) (s : string) :
  re_match [(first, Once); (rest, Star)] s = true <-> shaped first rest s.
Proof.
  unfold shaped. destruct s as [|c s].
  - split; [discriminate|]. intros (c & body & [H|H] & _); discriminate.
  - change (re_match [(first, Once); (rest, Star)] (String c s))
      with (first c && re_match [(rest, Star)] s).
    rewrite andb_true_iff, re_match_star_end. split.
    + intros (Hc & body & Hbody & Hs). exists c, body.
      destruct Hs as [->| ->]; auto.
    + intros (c' & body & Hs & Hc & Hbody).
      assert (c = c' /\ (s = body \/ s = body +:+ nl)) as [-> Hs'].
      { destruct Hs as [Hs|Hs]; injection Hs as -> ->; auto. }
      split; [exact Hc|]. exists body. auto.
Qed.

(** C6: a class is flagged exactly when its name does not match
    [^[A-Z][a-zA-Z0-9]*$], a function or method exactly when its name does
    not match [^[a-z_][a-z0-9_]*$]; [HTTPServer] passes and [http_server]
    fails as class names, [do_thing] passes and [DoThing] fails as function
    names; the violations come under ["Classes:"] and
    ["Functions/Methods:"], and without violations the report is the single
    confirmation line. *)
Theorem naming_conventions_spec (data : structure) :
  (forall name, re_match class_pattern name = true <-> camel_case name)
  /\ (forall name, re_match function_pattern name = true <-> snake_case name)
  /\ class_issues data =
       map (fun c => "Class '" +:+ c_name c +:+ "' does not follow CamelCase")
         (List.filter (fun c => negb (re_match class_pattern (c_name c)))
            (classes data))
  /\ func_issues data =
       flat_map (fun c =>
           map (fun m => method_label c m +:+ " does not follow snake_case")
             (List.filter (fun m => negb (re_match function_pattern (f_name m)))
                (c_methods c)))
         (classes data)
       ++ map (fun f => function_label f +:+ " does not follow snake_case")
            (List.filter (fun f => negb (re_match function_pattern (f_name f)))
               (functions data))
  /\ re_match class_pattern "HTTPServer" = true
  /\ re_match class_pattern "http_server" = false
  /\ re_match function_pattern "do_thing" = true
  /\ re_match function_pattern "DoThing" = false
  /\ check_naming_conventions data =
       match class_issues data ++ func_issues data with
       | [] => "All names adhere to the specified naming convention."
       | _ =>
           "Naming Convention Issues:" +:+ nl
           +:+ join nl (subsection "Classes:" (class_issues data)
                        ++ subsection "Functions/Methods:" (func_issues data))
       end.
Proof.
  split; [intros name; apply re_match_shaped|].
  split; [intros name; apply re_match_shaped|].
  do 6 (split; [reflexivity|]).
  unfold check_naming_conventions, subsection.
  destruct (class_issues data), (func_issues data); reflexivity.
Qed.

(** ** Parse errors *)

Section Runs.

Variable cleandoc : string -> string.
Variable ast_parse : string -> option node.

(** C8: when the text of the input file is not valid Python,
    [parse_file_structure] raises the parser's error and returns no
    record, and [main] ends with that error without having written any
    file, whether the path came from the command line or from the prompt. *)
Theorem parse_error_aborts (w : world) (filepath content : string) :
  files w !! filepath = Some content ->
  ast_parse content = None ->
  parse_file_structure cleandoc ast_parse w filepath = Raise SyntaxError
  /\ (forall prog,
        main cleandoc ast_parse [prog; filepath] w = (w, Raise SyntaxError))
  /\ (forall argv line rest,
        List.length argv <> 2 ->
        stdin w = line :: rest ->
        strip line = filepath ->
        (main cleandoc ast_parse argv w).2 = Raise SyntaxError
        /\ files (main cleandoc ast_parse argv w).1 = files w).
Proof.
  intros Hfile Hparse.
  assert (Hp : forall w', files w' = files w ->
            parse_file_structure cleandoc ast_parse w' filepath = Raise SyntaxError).
  { intros w' Hw'. unfold parse_file_structure, read_file, open_read, parse.
    rewrite Hw', Hfile. cbn [bind]. rewrite Hparse. reflexivity. }
  assert (Hi : forall w', files w' = files w -> isfile w' filepath = true).
  { intros w' Hw'. unfold isfile. rewrite Hw', Hfile.
    apply bool_decide_eq_true. eauto. }
  split; [now apply Hp|]. split.
  - intros prog. unfold main. rewrite Hi, Hp by reflexivity. reflexivity.
  - intros argv line rest Hlen Hin Hstrip.
    assert (Hmain : main cleandoc ast_parse argv w =
      ({| files := files w; stdin := rest;
          stdout := stdout w ++ ["Enter the path to the Python file: "] |},
       Raise SyntaxError)).
    { unfold main, input. rewrite Hin. cbn [tail bind]. rewrite Hstrip.
      destruct argv as [|a [|b [|c argv]]]; cbn in Hlen; try lia.
      all: rewrite Hi, Hp by reflexivity; reflexivity. }
    rewrite Hmain. split; reflexivity.
Qed.

End Runs.

Lemma parse_error_aborts_witness :
  (files broken_world !! "bad.py" = Some "def ("
   /\ parse_pass_only "def (" = None)
  /\ parse_file_structure keep_text parse_pass_only broken_world "bad.py"
     = Raise SyntaxError
  /\ main keep_text parse_pass_only ["checker.py"; "bad.py"] broken_world
     = (broken_world, Raise SyntaxError)
  /\ files (main keep_text parse_pass_only ["checker.py"] broken_world).1
     = files broken_world.
Proof.
  assert (H1 : files broken_world !! "bad.py" = Some "def (") by reflexivity.
  assert (H2 : parse_pass_only "def (" = None) by reflexivity.
  destruct (parse_error_aborts keep_text parse_pass_only broken_world
              "bad.py" "def (" H1 H2) as (Ha & Hb & Hc).
  split; [split; assumption|]. split; [exact Ha|]. split; [apply Hb|].
  apply (Hc ["checker.py"] " bad.py " []); [simpl; lia|reflexivity|reflexivity].
Defined.

(** ** Which declarations become entries *)

Section Nesting_facts.

Variable cleandoc : string -> string.

Lemma Forall2_Forall_r {A B} (P : A -> B -> Prop) (Q : B -> Prop)
    (l : list A) (k : list B) :
  Forall2 P l k -> (forall x y, x ∈ l -> P x y -> Q y) -> Forall Q k.
Proof.
  induction 1 as [|x y l k Hxy _ IH]; intros H; constructor.
  - apply (H x); [apply elem_of_cons; now left|exact Hxy].
  - apply IH. intros x' y' Hx'. apply H. apply elem_of_cons. now right.
Qed.

Lemma elem_of_filter_bool {A} (f : A -> bool) (l : list A) (x : A) :
  x ∈ List.filter f l <-> x ∈ l /\ f x = true.
Proof. rewrite !list_elem_of_In. apply List.filter_In. Qed.

Lemma function_of_name (n : node) (f : function_info) :
  function_of cleandoc n f -> declares (f_name f) n = true.
Proof.
  intros H. inversion H as [name a body decos returns f' Hf]; subst.
  apply function_info_of_Ok in Hf as (-> & _). cbn. apply String.eqb_refl.
Qed.

Lemma class_of_members (tree : node) (rc : ref) (c : class_info) :
  located tree rc -> class_of cleandoc rc.2 c ->
  Forall (member_of cleandoc tree c) (c_methods c).
Proof.
  intros Hloc Hc. pose proof Hc as Hc'. destruct rc as [p n]. cbn [snd] in Hc'.
  inversion Hc' as [name bases keywords body decos ms Hms Hn Hcc]; subst.
  cbn [c_methods]. eapply Forall2_Forall_r; [exact Hms|].
  intros x m [Hx _]%elem_of_filter_bool Hm.
  assert (Hchild : x ∈ iter_child_nodes (ClassDef name bases keywords body decos)).
  { cbn. rewrite !elem_of_app. auto. }
  apply list_elem_of_lookup in Hchild as [i Hi].
  exists (p, ClassDef name bases keywords body decos), (i :: p, x).
  unfold located in *. cbn [fst snd node_at parent_at tail] in *.
  rewrite Hloc. repeat split; auto.
Qed.

Lemma no_methods_nothing_missing (cs : list class_info) :
  Forall (fun c => c_methods c = []) cs ->
  flat_map (fun c => map (method_label c)
              (List.filter (fun m => negb (has_type_annotations m)) (c_methods c)))
    cs = [].
Proof.
  induction 1 as [|c cs Hc _ IH]; [reflexivity|].
  cbn [flat_map]. rewrite Hc. exact IH.
Qed.

Lemma extract_nesting (n_lines : nat) (tree : node) (data : structure) :
  extract cleandoc n_lines tree = Ok data ->
  nesting_by_parent cleandoc tree data.
Proof.
  intros (_ & _ & Hcs & Hfs)%extract_Ok. split.
  - eapply Forall2_Forall_r; [exact Hfs|].
    intros r f [Hr Hst]%elem_of_filter_bool Hf.
    exists r. split; [now apply walk_located|]. auto.
  - eapply Forall2_Forall_r; [exact Hcs|].
    intros r c [Hr _]%elem_of_filter_bool Hc.
    eapply class_of_members; [apply walk_located; exact Hr|exact Hc].
Qed.

(** C4, as the program behaves: every entry of [functions] comes from a
    function declaration whose direct parent is not a class declaration
    (the declaration may still lie deeper inside a class, for instance in
    the body of a method), and every entry of a class's [methods] comes
    from a function declaration whose direct parent is that class
    declaration. *)
Theorem nesting_invariant (n_lines : nat) (tree : node) (data : structure) :
  extract cleandoc n_lines tree = Ok data ->
  nesting_by_parent cleandoc tree data.
Proof. apply extract_nesting. Qed.

(** C10: coroutine declarations are ignored.  The loop passes over an
    [AsyncFunctionDef] node without touching its lists, the scan of a class
    body skips it, every entry of [functions] and of a class's [methods]
    comes from a plain function declaration, and a file whose function
    declarations are all coroutines gets no function and no method entry,
    so that the type-annotation report has nothing to list. *)
Theorem async_functions_ignored (parents : gmap path node) (st : lists)
    (r : ref) (before after : list node) (n : node)
    (n_lines : nat) (tree : node) (data : structure) :
  (is_AsyncFunctionDef r.2 = true -> visit cleandoc parents st r = Ok st)
  /\ (is_AsyncFunctionDef n = true ->
      class_methods cleandoc (before ++ n :: after)
      = class_methods cleandoc (before ++ after))
  /\ (extract cleandoc n_lines tree = Ok data ->
      Forall (fun f => exists r', r' ∈ walk tree /\ function_of cleandoc r'.2 f
                                  /\ is_AsyncFunctionDef r'.2 = false)
        (functions data)
      /\ Forall (fun c => Forall (fun m =>
                   exists r', r' ∈ walk tree /\ function_of cleandoc r'.2 m
                              /\ is_AsyncFunctionDef r'.2 = false)
                 (c_methods c))
          (classes data)
      /\ ((forall r', r' ∈ walk tree -> is_FunctionDef r'.2 = false) ->
          functions data = []
          /\ Forall (fun c => c_methods c = []) (classes data)
          /\ check_type_annotations data
             = "All functions and methods have type annotations.")).
Proof.
  split; [|split].
  - destruct r as [p x]. cbn [snd]. destruct x; try discriminate. reflexivity.
  - intros Hn. induction before as [|b before IH].
    + destruct n; try discriminate. reflexivity.
    + cbn [app class_methods]. destruct b; try exact IH. now rewrite IH.
  - intros Hdata. pose proof (extract_nesting _ _ _ Hdata) as [Hf Hm].
    assert (Hsync : forall x f, function_of cleandoc x f ->
                                is_AsyncFunctionDef x = false).
    { intros x f H. now inversion H. }
    assert (Hfs : Forall (fun f => exists r', r' ∈ walk tree
                    /\ function_of cleandoc r'.2 f
                    /\ is_AsyncFunctionDef r'.2 = false) (functions data)).
    { eapply Forall_impl; [exact Hf|]. intros f ([p x] & Hloc & Hfo & _).
      exists (p, x). split; [now apply walk_complete|]. eauto. }
    assert (Hms : Forall (fun c => Forall (fun m => exists r', r' ∈ walk tree
                    /\ function_of cleandoc r'.2 m
                    /\ is_AsyncFunctionDef r'.2 = false) (c_methods c))
                    (classes data)).
    { eapply Forall_impl; [exact Hm|]. intros c Hc.
      eapply Forall_impl; [exact Hc|].
      intros m (rc & [p x] & _ & Hloc & _ & Hfo & _).
      exists (p, x). split; [now apply walk_complete|]. eauto. }
    split; [exact Hfs|]. split; [exact Hms|]. intros Hnone.
    assert (Hno : forall x f, x ∈ walk tree -> function_of cleandoc x.2 f -> False).
    { intros x f Hx Hfo. apply Hnone in Hx. inversion Hfo as [? ? ? ? ? ? ? E].
      rewrite <- E in Hx. discriminate. }
    assert (H1 : functions data = []).
    { destruct (functions data) as [|f fs]; [reflexivity|].
      apply Forall_cons in Hfs as [(r' & Hr' & Hfo & _) _].
      elim (Hno _ _ Hr' Hfo). }
    assert (H2 : Forall (fun c => c_methods c = []) (classes data)).
    { eapply Forall_impl; [exact Hms|]. intros c Hc. cbn beta in Hc.
      destruct (c_methods c) as [|m ms]; [reflexivity|].
      apply Forall_cons in Hc as [(r' & Hr' & Hfo & _) _].
      elim (Hno _ _ Hr' Hfo). }
    split; [exact H1|]. split; [exact H2|].
    unfold check_type_annotations, missing_annotations. rewrite H1. cbn.
    rewrite (no_methods_nothing_missing _ H2). reflexivity.
Qed.

End Nesting_facts.

Lemma forallb_elem_of {A} (f : A -> bool) (l : list A) (x : A) :
  forallb f l = true -> x ∈ l -> f x = true.
Proof.
  intros H Hx. rewrite forallb_forall in H. apply H. now apply list_elem_of_In.
Qed.

(** C4 as stated fails: the function [inner], defined in the body of a
    method of class [A], becomes an entry of [functions] although the class
    is among its ancestors. *)
Lemma nested_function_is_listed :
  ~ exists cleandoc data,
      extract cleandoc 4 nested_py = Ok data
      /\ nesting_as_stated cleandoc nested_py data.
Proof.
  intros (cleandoc & data & Hdata & Hfuns & _).
  vm_compute in Hdata. injection Hdata as <-. cbn [functions] in Hfuns.
  apply Forall_cons in Hfuns as [([p n] & Hloc & Hf & Habove) _].
  apply function_of_name in Hf. cbn [fst snd f_name] in Hf, Habove.
  apply walk_complete in Hloc.
  assert (Hall : forallb (fun r => implb (declares "inner" r.2)
                    (existsb is_ClassDef (ancestors nested_py r.1)))
                   (walk nested_py) = true) by (vm_compute; reflexivity).
  pose proof (forallb_elem_of _ _ _ Hall Hloc) as H. cbn [fst snd] in H.
  rewrite Hf in H. cbn [implb] in H.
  apply existsb_exists in H as (a & Ha & Hcls).
  unfold no_class_above in Habove. rewrite Forall_forall in Habove.
  apply list_elem_of_In in Ha. apply Habove in Ha. congruence.
Qed.

Lemma nesting_invariant_witness :
  extract keep_text test_py_lines test_py = Ok test_py_data
  /\ nesting_by_parent keep_text test_py test_py_data.
Proof.
  assert (H : extract keep_text test_py_lines test_py = Ok test_py_data)
    by (vm_compute; reflexivity).
  split; [exact H|].
  exact (nesting_invariant keep_text test_py_lines test_py test_py_data H).
Defined.

Lemma async_functions_ignored_witness :
  (is_AsyncFunctionDef fetch_decl = true
   /\ extract keep_text 5 async_py = Ok async_py_data
   /\ forall r', r' ∈ walk async_py -> is_FunctionDef r'.2 = false)
  /\ visit keep_text ∅ no_entries ([0], fetch_decl) = Ok no_entries
  /\ class_methods keep_text ([] ++ run_decl :: []) = class_methods keep_text ([] ++ [])
  /\ functions async_py_data = []
  /\ Forall (fun c => c_methods c = []) (classes async_py_data)
  /\ check_type_annotations async_py_data
     = "All functions and methods have type annotations.".
Proof.
  assert (H1 : is_AsyncFunctionDef fetch_decl = true) by reflexivity.
  assert (H2 : extract keep_text 5 async_py = Ok async_py_data)
    by (vm_compute; reflexivity).
  assert (H3 : forall r', r' ∈ walk async_py -> is_FunctionDef r'.2 = false).
  { intros r' Hr'.
    assert (Hall : forallb (fun r => negb (is_FunctionDef r.2)) (walk async_py) = true)
      by (vm_compute; reflexivity).
    apply negb_true_iff. exact (forallb_elem_of _ _ _ Hall Hr'). }
  destruct (async_functions_ignored keep_text ∅ no_entries ([0], fetch_decl)
              [] [] run_decl 5 async_py async_py_data) as (Ha & Hb & Hc).
  destruct (Hc H2) as (_ & _ & Hd). destruct (Hd H3) as (He & Hf & Hg).
  split; [auto|]. split; [exact (Ha H1)|]. split; [exact (Hb eq_refl)|]. auto.
Defined.

(** ** Breadth-first against depth-first *)

Lemma flat_map_pointwise {A B} (f g : A -> list B) (l : list A) :
  (forall x, x ∈ l -> f x = g x) -> flat_map f l = flat_map g l.
Proof.
  induction l as [|x l IH]; intros H; [reflexivity|]. cbn [flat_map].
  rewrite (H x) by (apply elem_of_cons; now left).
  rewrite IH; [reflexivity|]. intros y Hy. apply H. apply elem_of_cons. now right.
Qed.

Lemma filter_flat_map {A B} (f : B -> bool) (g : A -> list B) (l : list A) :
  List.filter f (flat_map g l) = flat_map (fun x => List.filter f (g x)) l.
Proof.
  induction l as [|x l IH]; [reflexivity|]. cbn [flat_map].
  now rewrite List.filter_app, IH.
Qed.

Lemma flat_map_flat_map {A B C} (f : A -> list B) (g : B -> list C) (l : list A) :
  flat_map g (flat_map f l) = flat_map (fun x => flat_map g (f x)) l.
Proof.
  induction l as [|x l IH]; [reflexivity|]. cbn [flat_map].
  now rewrite List.flat_map_app, IH.
Qed.

Lemma flat_map_nothing {A B} (l : list A) :
  flat_map (fun _ => @nil B) l = [].
Proof. induction l; [reflexivity|assumption]. Qed.

Lemma flat_map_each {A} (l : list A) : flat_map (fun x => [x]) l = l.
Proof. induction l as [|x l IH]; [reflexivity|]. cbn. now rewrite IH. Qed.

Lemma filter_none {A} (f : A -> bool) (l : list A) :
  (forall x, x ∈ l -> f x = false) -> List.filter f l = [].
Proof.
  induction l as [|x l IH]; intros H; [reflexivity|]. cbn [List.filter].
  rewrite (H x) by (apply elem_of_cons; now left).
  apply IH. intros y Hy. apply H. apply elem_of_cons. now right.
Qed.

Lemma filter_all {A} (f : A -> bool) (l : list A) :
  (forall x, x ∈ l -> f x = true) -> List.filter f l = l.
Proof.
  induction l as [|x l IH]; intros H; [reflexivity|]. cbn [List.filter].
  rewrite (H x) by (apply elem_of_cons; now left). f_equal.
  apply IH. intros y Hy. apply H. apply elem_of_cons. now right.
Qed.

Lemma filter_narrow {A} (f g : A -> bool) (l : list A) :
  (forall x, x ∈ l -> f x = true -> g x = true) ->
  List.filter f l = List.filter f (List.filter g l).
Proof.
  induction l as [|x l IH]; intros H; [reflexivity|]. cbn [List.filter].
  assert (IH' : List.filter f l = List.filter f (List.filter g l)).
  { apply IH. intros y Hy. apply H. apply elem_of_cons. now right. }
  destruct (f x) eqn:Hf.
  - rewrite (H x) by (try apply elem_of_cons; auto). cbn [List.filter].
    now rewrite Hf, IH'.
  - destruct (g x); [cbn [List.filter]; rewrite Hf|]; exact IH'.
Qed.

Lemma child_refs_smaller (r c : ref) :
  c ∈ child_refs r -> node_size c.2 < node_size r.2.
Proof.
  intros Hc. rewrite <- (queue_size_child_refs r).
  apply Nat.lt_succ_r. unfold queue_size.
  exact (sum_list_with_in c (fun r => node_size r.2) _ Hc).
Qed.

Lemma child_refs_depth (r c : ref) : c ∈ child_refs r -> depth c = S (depth r).
Proof. intros (i & H & _)%child_refs_spec. unfold depth. now rewrite H. Qed.

Lemma dfs_from_fuel (f1 f2 : nat) (r : ref) :
  node_size r.2 <= f1 -> node_size r.2 <= f2 -> dfs_from f1 r = dfs_from f2 r.
Proof.
  revert f2 r. induction f1 as [|f1 IH]; intros f2 r H1 H2.
  - pose proof (node_size_pos r.2). lia.
  - destruct f2 as [|f2]; [pose proof (node_size_pos r.2); lia|].
    cbn [dfs_from]. f_equal. apply flat_map_pointwise. intros c Hc.
    apply child_refs_smaller in Hc. apply IH; lia.
Qed.

Lemma dfs_unfold (r : ref) : dfs r = r :: flat_map dfs (child_refs r).
Proof.
  unfold dfs. destruct (node_size r.2) as [|k] eqn:E.
  - pose proof (node_size_pos r.2). lia.
  - cbn [dfs_from]. f_equal. apply flat_map_pointwise. intros c Hc.
    apply child_refs_smaller in Hc. apply dfs_from_fuel; lia.
Qed.

(** Induction on the nodes below a reference. *)
Lemma dfs_ind (P : ref -> Prop) :
  (forall r, (forall c, c ∈ child_refs r -> P c) -> P r) -> forall r, P r.
Proof.
  intros H r. remember (node_size r.2) as k eqn:Hk.
  revert r Hk. induction k as [k IH] using lt_wf_ind. intros r Hk.
  apply H. intros c Hc. apply (IH (node_size c.2)); [|reflexivity].
  subst k. now apply child_refs_smaller.
Qed.

Lemma elem_of_flat_map {A B} (f : A -> list B) (l : list A) (y : B) :
  y ∈ flat_map f l <-> exists x, x ∈ l /\ y ∈ f x.
Proof.
  rewrite list_elem_of_In, in_flat_map. split; intros (x & H1 & H2); exists x.
  - now rewrite !list_elem_of_In.
  - now rewrite <- !list_elem_of_In.
Qed.

Lemma dfs_depth (r x : ref) : x ∈ dfs r -> depth r <= depth x.
Proof.
  revert x. induction r as [r IH] using dfs_ind. intros x.
  rewrite dfs_unfold. intros [->|Hx]%elem_of_cons; [lia|].
  apply elem_of_flat_map in Hx as (c & Hc & Hx).
  pose proof (child_refs_depth _ _ Hc). pose proof (IH c Hc x Hx). lia.
Qed.

Lemma dfs_located (tree : node) (r x : ref) :
  located tree r -> x ∈ dfs r -> located tree x.
Proof.
  revert x. induction r as [r IH] using dfs_ind. intros x Hr.
  rewrite dfs_unfold. intros [->|Hx]%elem_of_cons; [exact Hr|].
  apply elem_of_flat_map in Hx as (c & Hc & Hx).
  apply (IH c Hc x); [|exact Hx]. eapply child_refs_located; eauto.
Qed.

Lemma filter_dfs_below (k : nat) (r : ref) :
  k <= depth r -> forall c, c ∈ child_refs r -> List.filter (at_depth k) (dfs c) = [].
Proof.
  intros Hk c Hc. apply filter_none. intros x Hx.
  apply dfs_depth in Hx. apply child_refs_depth in Hc.
  unfold at_depth. apply Nat.eqb_neq. lia.
Qed.

Lemma filter_dfs (k : nat) (r : ref) :
  List.filter (at_depth k) (dfs r) =
  if at_depth k r then [r]
  else flat_map (fun c => List.filter (at_depth k) (dfs c)) (child_refs r).
Proof.
  rewrite dfs_unfold. cbn [List.filter]. rewrite filter_flat_map.
  destruct (at_depth k r) eqn:E; [|reflexivity]. f_equal.
  apply Nat.eqb_eq in E.
  rewrite (flat_map_pointwise _ (fun _ => [])).
  - apply flat_map_nothing.
  - intros c Hc. apply (filter_dfs_below k r); [lia|exact Hc].
Qed.

Lemma bfs_app (q a : list ref) :
  bfs (q ++ a) = q ++ bfs (a ++ flat_map child_refs q).
Proof.
  revert a. induction q as [|r q IH]; intros a; cbn [app flat_map].
  - now rewrite app_nil_r.
  - rewrite bfs_cons. f_equal. rewrite <- app_assoc, IH, <- app_assoc. reflexivity.
Qed.

Lemma bfs_level (q : list ref) : bfs q = q ++ bfs (flat_map child_refs q).
Proof. rewrite <- (app_nil_r q) at 1. now rewrite bfs_app. Qed.

Lemma queue_size_level (q : list ref) :
  queue_size (flat_map child_refs q) + List.length q = queue_size q.
Proof.
  induction q as [|r q IH]; [reflexivity|]. cbn [flat_map List.length].
  rewrite queue_size_app. unfold queue_size at 3. cbn [sum_list_with].
  fold (queue_size q). pose proof (queue_size_child_refs r). lia.
Qed.

Lemma same_depth_sorted (d : nat) (q : list ref) :
  Forall (fun r => depth r = d) q -> StronglySorted by_depth q.
Proof.
  induction 1 as [|r q Hr Hq IH]; constructor; [exact IH|].
  eapply Forall_impl; [exact Hq|]. intros x Hx. cbn beta in Hx, Hr.
  unfold by_depth. lia.
Qed.

(** The walk from a queue of nodes of one depth: depth by depth, and within
    each depth in the order of the depth-first traversals. *)
Lemma bfs_levels (q : list ref) (d : nat) :
  Forall (fun r => depth r = d) q ->
  Forall (fun x => d <= depth x) (bfs q)
  /\ StronglySorted by_depth (bfs q)
  /\ forall k, List.filter (at_depth k) (bfs q)
              = flat_map (fun r => List.filter (at_depth k) (dfs r)) q.
Proof.
  remember (queue_size q) as s eqn:Hs.
  revert q d Hs. induction s as [s IH] using lt_wf_ind. intros q d Hs Hq.
  destruct q as [|r0 q0].
  { rewrite bfs_nil. repeat split; constructor. }
  set (q := r0 :: q0) in *. rewrite bfs_level.
  assert (Hq' : Forall (fun r => depth r = S d) (flat_map child_refs q)).
  { apply Forall_forall. intros c (r & Hr & Hc)%elem_of_flat_map.
    rewrite Forall_forall in Hq. rewrite (child_refs_depth _ _ Hc). f_equal. auto. }
  assert (Hlt : queue_size (flat_map child_refs q) < s).
  { subst s. rewrite <- (queue_size_level q). unfold q. cbn [List.length]. lia. }
  destruct (IH _ Hlt _ (S d) eq_refl Hq') as (Hge & Hsorted & Hfilter).
  rewrite Forall_forall in Hq, Hge. split; [|split].
  - apply Forall_app. split; apply Forall_forall; intros x Hx.
    + rewrite (Hq x Hx). lia.
    + pose proof (Hge x Hx). lia.
  - apply StronglySorted_app. split; [|split].
    + intros x1 x2 H1 H2. unfold by_depth. rewrite (Hq x1 H1).
      pose proof (Hge x2 H2). lia.
    + apply (same_depth_sorted d). now apply Forall_forall.
    + exact Hsorted.
  - intros k. rewrite List.filter_app, Hfilter, flat_map_flat_map.
    destruct (Nat.eq_dec k d) as [->|Hne].
    + rewrite (filter_all (at_depth d) q).
      2:{ intros x Hx. unfold at_depth. apply Nat.eqb_eq. auto. }
      rewrite (flat_map_pointwise _ (fun _ => [])).
      2:{ intros x Hx. rewrite (flat_map_pointwise _ (fun _ => [])).
          - apply flat_map_nothing.
          - intros c Hc. apply (filter_dfs_below d x); [rewrite (Hq x Hx); lia|exact Hc]. }
      rewrite (flat_map_pointwise (fun r => List.filter (at_depth d) (dfs r))
                 (fun r => [r])).
      2:{ intros x Hx. rewrite filter_dfs. unfold at_depth.
          rewrite (Hq x Hx), Nat.eqb_refl. reflexivity. }
      now rewrite flat_map_nothing, flat_map_each, app_nil_r.
    + rewrite (filter_none (at_depth k) q).
      2:{ intros x Hx. unfold at_depth. apply Nat.eqb_neq. rewrite (Hq x Hx). lia. }
      cbn [app]. apply flat_map_pointwise. intros x Hx. rewrite filter_dfs.
      unfold at_depth at 2. rewrite (Hq x Hx).
      destruct (Nat.eqb_spec d k); [lia|reflexivity].
Qed.

Lemma walk_by_depth (tree : node) :
  StronglySorted by_depth (walk tree)
  /\ forall k, List.filter (at_depth k) (walk tree)
              = List.filter (at_depth k) (preorder tree).
Proof.
  rewrite walk_bfs.
  destruct (bfs_levels [([], tree)] 0) as (_ & Hsorted & Hfilter).
  { constructor; [reflexivity|constructor]. }
  split; [exact Hsorted|]. intros k. rewrite Hfilter. cbn [flat_map].
  apply app_nil_r.
Qed.

Lemma preorder_located (tree : node) (r : ref) :
  r ∈ preorder tree -> located tree r.
Proof. apply dfs_located. reflexivity. Qed.

(** Declarations that all lie at one depth are walked in source order. *)
Lemma one_depth_source_order (f : ref -> bool) (tree : node) (d : nat) :
  (forall r, located tree r -> f r = true -> depth r = d) ->
  List.filter f (walk tree) = List.filter f (preorder tree).
Proof.
  intros H. destruct (walk_by_depth tree) as [_ Hlevel].
  rewrite (filter_narrow f (at_depth d) (walk tree)).
  2:{ intros x Hx Hf. apply Nat.eqb_eq. apply H; [now apply walk_located|exact Hf]. }
  rewrite (filter_narrow f (at_depth d) (preorder tree)).
  2:{ intros x Hx Hf. apply Nat.eqb_eq. apply H; [now apply preorder_located|exact Hf]. }
  now rewrite Hlevel.
Qed.

Lemma Forall2_map_eq {A B C} (f : A -> C) (g : B -> C) (P : A -> B -> Prop)
    (l : list A) (k : list B) :
  Forall2 P l k -> (forall x y, P x y -> f x = g y) -> map f l = map g k.
Proof.
  induction 1 as [|x y l k Hxy _ IH]; intros H; [reflexivity|].
  cbn [map]. rewrite (H x y Hxy), IH by exact H. reflexivity.
Qed.

Section Order_facts.

Variable cleandoc : string -> string.

Lemma function_of_declared (n : node) (f : function_info) :
  function_of cleandoc n f -> declared_name n = f_name f.
Proof.
  intros H. inversion H as [name a body decos returns f' Hf]; subst.
  apply function_info_of_Ok in Hf as (-> & _). reflexivity.
Qed.

Lemma function_of_parameters (n : node) (f : function_info) :
  function_of cleandoc n f -> parameters_in_order n f.
Proof.
  intros H. inversion H as [name a body decos returns f' Hf]; subst.
  apply function_info_of_Ok in Hf as (_ & _ & Hargs & _). cbn.
  symmetry. eapply Forall2_map_eq; [exact Hargs|]. intros x p [Hp _]. now rewrite Hp.
Qed.

Lemma class_of_methods (n : node) (c : class_info) :
  class_of cleandoc n c -> methods_in_order cleandoc n c.
Proof.
  intros H. inversion H as [name bases keywords body decos ms Hms]; subst. cbn.
  eapply Forall2_impl; [exact Hms|]. intros d m Hm.
  split; [exact Hm|now apply function_of_parameters].
Qed.

(** C7, as the program behaves: the methods of a class and the parameters
    of a function are in source order.  The entries of [classes] and of
    [functions] are in the order of [ast.walk], which is breadth-first:
    declarations come by their depth in the syntax tree, the number of
    nodes above them ([depth]), smallest first, and in source order among
    the declarations of one tree depth.  The tree depth is not the
    indentation: every compound statement around a declaration adds a
    level, and so does each [elif], which is an [If] inside the [orelse]
    of the one before.  So the entries are in source order whenever the
    class declarations all lie at one tree depth and the standalone
    function declarations all lie at one tree depth (all of them
    statements of the module body, say). *)
Theorem entries_in_walk_order (n_lines : nat) (tree : node) (data : structure) :
  extract cleandoc n_lines tree = Ok data ->
  listed_in cleandoc (walk tree) tree data
  /\ StronglySorted by_depth (walk tree)
  /\ (forall k, List.filter (at_depth k) (walk tree)
               = List.filter (at_depth k) (preorder tree))
  /\ Forall2 (fun r c => methods_in_order cleandoc r.2 c)
       (List.filter (fun r => is_ClassDef r.2) (walk tree)) (classes data)
  /\ Forall2 (fun r f => parameters_in_order r.2 f)
       (List.filter (standalone tree) (walk tree)) (functions data)
  /\ (forall dc df,
        (forall r, located tree r -> is_ClassDef r.2 = true -> depth r = dc) ->
        (forall r, located tree r -> standalone tree r = true -> depth r = df) ->
        listed_in cleandoc (preorder tree) tree data).
Proof.
  intros (_ & _ & Hcs & Hfs)%extract_Ok.
  destruct (walk_by_depth tree) as [Hsorted Hlevel].
  split; [split; assumption|]. split; [exact Hsorted|]. split; [exact Hlevel|].
  split; [|split].
  - eapply Forall2_impl; [exact Hcs|]. intros r c. apply class_of_methods.
  - eapply Forall2_impl; [exact Hfs|]. intros r f. apply function_of_parameters.
  - intros dc df Hdc Hdf. unfold listed_in.
    pose proof (one_depth_source_order (fun r => is_ClassDef r.2) tree dc Hdc) as Ec.
    pose proof (one_depth_source_order (standalone tree) tree df Hdf) as Ef.
    cbn beta in Ec. unfold ref in *. rewrite <- Ec, <- Ef. split; assumption.
Qed.

End Order_facts.

(** C7 as stated fails: in [order_py] the function [g], defined inside [f],
    precedes [h] in the source but follows it in [functions]. *)
Lemma inner_function_listed_late :
  ~ exists cleandoc data,
      extract cleandoc 5 order_py = Ok data
      /\ listed_in cleandoc (preorder order_py) order_py data.
Proof.
  intros (cleandoc & data & Hdata & _ & Hfs).
  vm_compute in Hdata. injection Hdata as <-. cbn [functions] in Hfs.
  apply (Forall2_map_eq (fun r => declared_name r.2) f_name) in Hfs.
  - vm_compute in Hfs. discriminate.
  - intros r f. apply function_of_declared.
Qed.

(** Tree depth against indentation: in [branches_py] the functions [a]
    and [b] are indented alike, but [b], under [elif], lies one level
    deeper than [a]; [c], a statement of the module, is listed first. *)
Lemma branch_functions_by_tree_depth :
  (exists data,
     extract keep_text 5 branches_py = Ok data
     /\ map f_name (functions data) = ["c"; "a"; "b"])
  /\ map (fun r => (declared_name r.2, depth r))
       (List.filter (standalone branches_py) (preorder branches_py))
     = [("a", 2); ("b", 3); ("c", 1)].
Proof.
  split; [eexists; split; [vm_compute; reflexivity|reflexivity]|].
  vm_compute. reflexivity.
Qed.

Lemma entries_in_walk_order_witness :
  (extract keep_text test_py_lines test_py = Ok test_py_data
   /\ (forall r, located test_py r -> is_ClassDef r.2 = true -> depth r = 1)
   /\ (forall r, located test_py r -> standalone test_py r = true -> depth r = 1))
  /\ listed_in keep_text (walk test_py) test_py test_py_data
  /\ listed_in keep_text (preorder test_py) test_py test_py_data.
Proof.
  assert (H : extract keep_text test_py_lines test_py = Ok test_py_data)
    by (vm_compute; reflexivity).
  assert (Hc : forall r, located test_py r -> is_ClassDef r.2 = true -> depth r = 1).
  { intros [p n] Hr Hcls. apply walk_complete in Hr.
    assert (Hall : forallb (fun r => implb (is_ClassDef r.2) (at_depth 1 r))
                     (walk test_py) = true) by (vm_compute; reflexivity).
    pose proof (forallb_elem_of _ _ _ Hall Hr) as Hd.
    cbn [fst snd] in Hd, Hcls. rewrite Hcls in Hd. now apply Nat.eqb_eq. }
  assert (Hf : forall r, located test_py r -> standalone test_py r = true -> depth r = 1).
  { intros [p n] Hr Hst. apply walk_complete in Hr.
    assert (Hall : forallb (fun r => implb (standalone test_py r) (at_depth 1 r))
                     (walk test_py) = true) by (vm_compute; reflexivity).
    pose proof (forallb_elem_of _ _ _ Hall Hr) as Hd.
    cbn [fst snd] in Hd. rewrite Hst in Hd. now apply Nat.eqb_eq. }
  destruct (entries_in_walk_order keep_text test_py_lines test_py test_py_data H)
    as (Hwalk & _ & _ & _ & _ & Hsource).
  split; [auto|]. split; [exact Hwalk|]. exact (Hsource 1 1 Hc Hf).
Defined.

(** ** When a record is produced *)

Section Totality.

Variable cleandoc : string -> string.

Lemma function_info_of_total name (a : arguments) body returns :
  Forall (fun x => renderable (annotation x)) (args a) ->
  renderable returns ->
  exists f, function_info_of cleandoc name a body returns = Ok f.
Proof.
  intros Hargs [ret Hret]. unfold function_info_of.
  assert (exists ps, comprehension arg_info (args a) = Ok ps) as [ps ->].
  { induction Hargs as [|x xs [s Hs] _ [ps IH]]; [now exists []|].
    cbn [comprehension]. unfold arg_info at 1. rewrite Hs. cbn [bind].
    rewrite IH. cbn [bind]. eauto. }
  cbn [bind]. rewrite Hret. cbn [bind]. eauto.
Qed.

Lemma class_methods_total (body : list node) :
  (forall name a fbody decos returns,
     FunctionDef name a fbody decos returns ∈ body ->
     Forall (fun x => renderable (annotation x)) (args a) /\ renderable returns) ->
  exists ms, class_methods cleandoc body = Ok ms.
Proof.
  induction body as [|n body IH]; intros H; [now exists []|].
  destruct IH as [ms Hms].
  { intros name a fbody decos returns Hin. eapply H. apply elem_of_cons. right.
    exact Hin. }
  destruct n; cbn [class_methods]; eauto.
  destruct (H name a body0 decorator_list returns) as [Hargs Hret];
    [apply elem_of_cons; now left|].
  destruct (function_info_of_total name a body0 returns Hargs Hret) as [f ->].
  cbn [bind]. rewrite Hms. cbn [bind]. eauto.
Qed.

Lemma for_each_total {S A} (body : S -> A -> result S) (l : list A) (st : S) :
  (forall x st, x ∈ l -> exists st', body st x = Ok st') ->
  exists st', for_each body st l = Ok st'.
Proof.
  revert st. induction l as [|x l IH]; intros st H; [now exists st|].
  cbn [for_each]. destruct (H x st) as [st1 ->]; [apply elem_of_cons; now left|].
  cbn [bind]. apply IH. intros y st2 Hy. apply H. apply elem_of_cons. now right.
Qed.

(** [extract] returns a record whenever the annotations of the function
    declarations can all be rendered. *)
Lemma extract_total (n_lines : nat) (tree : node) :
  all_renderable tree -> exists data, extract cleandoc n_lines tree = Ok data.
Proof.
  intros Hall. unfold extract.
  destruct (for_each_total (visit cleandoc (assign_parents tree)) (walk tree)
              {| l_imports := []; l_classes := []; l_functions := [] |})
    as [st ->]; [|cbn [bind]; eauto].
  intros [p n] st Hx. unfold visit. cbn [snd].
  destruct n; eauto.
  - destruct (class_methods_total body) as [ms ->]; [|cbn [bind]; eauto].
    intros fname a fbody decos returns Hin.
    assert (Hchild : FunctionDef fname a fbody decos returns
                     ∈ iter_child_nodes (ClassDef name bases keywords body decorator_list)).
    { cbn. rewrite !elem_of_app. auto. }
    apply list_elem_of_lookup in Hchild as [i Hi].
    apply (Hall (i :: p, FunctionDef fname a fbody decos returns)
             fname a fbody decos returns); [|reflexivity].
    rewrite walk_bfs. eapply bfs_children; [rewrite <- walk_bfs; exact Hx|].
    apply child_refs_spec. exists i. auto.
  - destruct (parent_is_ClassDef _ _); eauto.
    destruct (Hall _ name a body decorator_list returns Hx eq_refl) as [Hargs Hret].
    destruct (function_info_of_total name a body returns Hargs Hret) as [f ->].
    cbn [bind]. eauto.
Qed.

End Totality.

(** * Further properties of the program *)

(** ** What the renderer returns *)

(** X1: [annotation_to_string] raises nothing but [AttributeError], and
    exactly in two cases: an attribute whose base is not a plain name
    ([a.b.c], [f().x]), and a subscript with a plain-name base whose slice
    object has no [value] attribute. *)
Theorem annotation_to_string_failure (a : option node) (e : exn) :
  annotation_to_string a = Raise e <->
  e = AttributeError
  /\ ((exists v attr ctx, a = Some (Attribute v attr ctx) /\ hasattr_id v = false)
      \/ (exists v s ctx, a = Some (Subscript v s ctx) /\ hasattr_id v = true
                          /\ getattr_value s = Raise AttributeError)).
Proof. apply annotation_to_string_raises. Qed.

(** X2: [annotation_to_string] returns a text exactly for a plain name
    (the name), for an attribute of a plain name ([base.attr]) and for a
    subscript of a plain name whose slice object has a plain name as its
    [value] ([base[item]]).  The last case covers [List[int]] as Python 3.8
    parses it (the slice is an [Index]), but also a slice that is itself a
    subscript or an attribute: [List[Dict[str, int]]] read by Python 3.9 is
    rendered [List[Dict]], and [List[a.b]] is rendered [List[a]]. *)
Theorem annotation_to_string_text (a : option node) (s : string) :
  (annotation_to_string a = Ok (Some s) <->
     (exists ctx, a = Some (Name s ctx))
     \/ (exists base c1 attr c2,
          a = Some (Attribute (Name base c1) attr c2)
          /\ s = base +:+ "." +:+ attr)
     \/ (exists base c1 slice c2 item c3,
          a = Some (Subscript (Name base c1) slice c2)
          /\ getattr_value slice = Ok (PyNode (Name item c3))
          /\ s = base +:+ "[" +:+ item +:+ "]"))
  /\ (forall base item c1 c2 c3 c4 inner attr,
       annotation_to_string
         (Some (Subscript (Name base c1) (Index (Name item c2)) c3))
       = Ok (Some (base +:+ "[" +:+ item +:+ "]"))
       /\ annotation_to_string
            (Some (Subscript (Name base c1)
                     (Subscript (Name item c2) inner c4) c3))
          = Ok (Some (base +:+ "[" +:+ item +:+ "]"))
       /\ annotation_to_string
            (Some (Subscript (Name base c1)
                     (Attribute (Name item c2) attr c4) c3))
          = Ok (Some (base +:+ "[" +:+ item +:+ "]"))).
Proof.
  split; [|intros; repeat split; reflexivity]. split.
  - destruct a as [[]|]; cbn; try discriminate.
    + intros [= <-]. left. eauto.
    + destruct value; cbn; try discriminate. intros [= <-]. right. left. eauto 10.
    + destruct value; cbn; try discriminate.
      destruct (getattr_value slice) as [[n|]|e'] eqn:Hs; cbn; try discriminate.
      destruct n; cbn; try discriminate. intros [= <-]. right. right. eauto 12.
  - intros [(ctx & ->)|[(base & c1 & attr & c2 & -> & ->)
                       |(base & c1 & slice & c2 & item & c3 & -> & Hs & ->)]]; cbn.
    + reflexivity.
    + reflexivity.
    + rewrite Hs. reflexivity.
Qed.

(** ** When extraction fails *)

Lemma renders_renderable (a : option node) : renders a = true <-> renderable a.
Proof.
  unfold renders, renderable. destruct (annotation_to_string a) as [s|e].
  - split; eauto.
  - split; [discriminate|]. intros [s H]. discriminate.
Qed.

Lemma declaration_renders_walk (tree : node) :
  forallb (fun r => declaration_renders r.2) (walk tree) = true ->
  all_renderable tree.
Proof.
  intros Hall r name a body decos returns Hr Hn.
  pose proof (forallb_elem_of _ _ _ Hall Hr) as H. cbn beta in H.
  rewrite Hn in H. cbn [declaration_renders] in H.
  apply andb_true_iff in H as [Hargs Hret]. split.
  - apply Forall_forall. intros x Hx. apply renders_renderable.
    exact (forallb_elem_of _ _ _ Hargs Hx).
  - now apply renders_renderable.
Qed.

Lemma plain_class_parts_walk (tree : node) :
  forallb (fun r => plain_class_parts r.2) (walk tree) = true ->
  plain_classes tree.
Proof. intros Hall r Hr. exact (forallb_elem_of _ _ _ Hall Hr). Qed.

Lemma annotation_to_string_exn (a : option node) (e : exn) :
  annotation_to_string a = Raise e -> e = AttributeError.
Proof. intros H. now apply annotation_to_string_raises in H as [-> _]. Qed.

Lemma comprehension_exn {A B} (f : A -> result B) (xs : list A) (e : exn) :
  comprehension f xs = Raise e -> exists x, x ∈ xs /\ f x = Raise e.
Proof.
  induction xs as [|x xs IH]; cbn [comprehension]; [discriminate|].
  destruct (f x) as [y|e'] eqn:Hx; cbn [bind].
  - destruct (comprehension f xs) as [ys|e'']; cbn [bind]; [discriminate|].
    intros [= ->]. destruct (IH eq_refl) as (x' & Hin & Hx').
    exists x'. split; [apply elem_of_cons; now right|exact Hx'].
  - intros [= ->]. exists x. split; [apply elem_of_cons; now left|exact Hx].
Qed.

Lemma for_each_exn {S A} (body : S -> A -> result S) (l : list A) (st : S) (e : exn) :
  for_each body st l = Raise e -> exists x st', x ∈ l /\ body st' x = Raise e.
Proof.
  revert st. induction l as [|x l IH]; intros st; cbn [for_each]; [discriminate|].
  destruct (body st x) as [st1|e'] eqn:Hx; cbn [bind].
  - intros H. destruct (IH _ H) as (x' & st' & Hin & Hx').
    exists x', st'. split; [apply elem_of_cons; now right|exact Hx'].
  - intros [= ->]. exists x, st. split; [apply elem_of_cons; now left|exact Hx].
Qed.

Lemma Forall2_elem_of_l {A B} (P : A -> B -> Prop) (l : list A) (k : list B) (x : A) :
  Forall2 P l k -> x ∈ l -> exists y, y ∈ k /\ P x y.
Proof.
  induction 1 as [|x' y l k Hxy _ IH]; intros Hx; [inversion Hx|].
  apply elem_of_cons in Hx as [->|Hx].
  - exists y. split; [apply elem_of_cons; now left|exact Hxy].
  - destruct (IH Hx) as (y' & Hy' & Hp). exists y'.
    split; [apply elem_of_cons; now right|exact Hp].
Qed.

Section Failure.

Variable cleandoc : string -> string.

Lemma function_info_of_exn name (a : arguments) body returns (e : exn) :
  function_info_of cleandoc name a body returns = Raise e -> e = AttributeError.
Proof.
  unfold function_info_of.
  destruct (comprehension arg_info (args a)) as [ps|e'] eqn:Hps; cbn [bind].
  - destruct (annotation_to_string returns) as [ret|e''] eqn:Hret; cbn [bind];
      [discriminate|]. intros [= ->]. now apply annotation_to_string_exn in Hret.
  - intros [= ->]. apply comprehension_exn in Hps as (x & _ & Hx).
    unfold arg_info in Hx.
    destruct (annotation_to_string (annotation x)) as [s|e''] eqn:Hs; cbn [bind] in Hx;
      [discriminate|]. injection Hx as ->. now apply annotation_to_string_exn in Hs.
Qed.

Lemma class_methods_exn (body : list node) (e : exn) :
  class_methods cleandoc body = Raise e -> e = AttributeError.
Proof.
  induction body as [|n body IH]; cbn [class_methods]; [discriminate|].
  destruct n; try exact IH.
  destruct (function_info_of _ _ _ _ _) as [m|e'] eqn:Hm; cbn [bind].
  - destruct (class_methods cleandoc body) as [ms|e'']; cbn [bind]; [discriminate|].
    intros [= ->]. now apply IH.
  - intros [= ->]. now apply function_info_of_exn in Hm.
Qed.

Lemma visit_exn (parents : gmap path node) (st : lists) (r : ref) (e : exn) :
  visit cleandoc parents st r = Raise e -> e = AttributeError.
Proof.
  unfold visit. destruct r as [p n]. cbn [snd]. destruct n; try discriminate.
  - destruct (class_methods cleandoc body) as [ms|e'] eqn:Hms; cbn [bind];
      [discriminate|]. intros [= ->]. now apply class_methods_exn in Hms.
  - destruct (parent_is_ClassDef _ _); [discriminate|].
    destruct (function_info_of _ _ _ _ _) as [f|e'] eqn:Hf; cbn [bind];
      [discriminate|]. intros [= ->]. now apply function_info_of_exn in Hf.
Qed.

Lemma function_of_renderable (n : node) (f : function_info)
    name a body decos returns :
  function_of cleandoc n f ->
  n = FunctionDef name a body decos returns ->
  Forall (fun x => renderable (annotation x)) (args a) /\ renderable returns.
Proof.
  intros H Hn. subst n. inversion H as [? ? ? ? ? ? Hf]; subst.
  apply function_info_of_Ok in Hf as (_ & _ & Hargs & Hret). split.
  - clear -Hargs. induction Hargs as [|x p xs ps [_ Hx] _ IH]; constructor; [|exact IH].
    eexists. exact Hx.
  - eexists. exact Hret.
Qed.

Lemma extract_exn (n_lines : nat) (tree : node) (e : exn) :
  extract cleandoc n_lines tree = Raise e -> e = AttributeError.
Proof.
  unfold extract.
  destruct (for_each _ _ _) as [st|e'] eqn:Hst; cbn [bind]; [discriminate|].
  intros [= ->]. apply for_each_exn in Hst as (x & st' & _ & Hx).
  now apply visit_exn in Hx.
Qed.

(** X3: the only exception [parse_file_structure] can take from the tree
    is [AttributeError].  The record is returned whenever the annotations
    on the [args] and the return type of every function declaration can be
    rendered, and, on a tree as the parser builds it, only then: one
    unrenderable annotation anywhere in the file loses the whole record. *)
Theorem extract_outcome (n_lines : nat) (tree : node) :
  (forall e, extract cleandoc n_lines tree = Raise e -> e = AttributeError)
  /\ (all_renderable tree ->
      exists data, extract cleandoc n_lines tree = Ok data)
  /\ (plain_classes tree ->
      forall data, extract cleandoc n_lines tree = Ok data -> all_renderable tree).
Proof.
  split; [|split].
  - intros e. apply extract_exn.
  - apply extract_total.
  - intros Hplain data (_ & _ & Hcs & Hfs)%extract_Ok.
    intros [p n] name a body decos returns Hr Hn. cbn [snd] in Hn.
    destruct (standalone tree (p, n)) eqn:Hst.
    + destruct (Forall2_elem_of_l _ _ _ (p, n) Hfs) as (f & _ & Hf).
      { apply elem_of_filter_bool. auto. }
      eapply function_of_renderable; eauto.
    + unfold standalone in Hst. cbn [fst snd] in Hst. rewrite Hn in Hst.
      cbn [is_FunctionDef andb] in Hst. apply negb_false_iff in Hst.
      destruct p as [|i q]; [discriminate|]. cbn [parent_at] in Hst.
      destruct (node_at tree q) as [c|] eqn:Hq; [|discriminate].
      pose proof (walk_located _ _ Hr) as Hloc. unfold located in Hloc.
      cbn [fst snd node_at] in Hloc. rewrite Hq in Hloc.
      destruct c; try discriminate. cbn [iter_child_nodes] in Hloc.
      apply walk_complete in Hq.
      pose proof (Hplain _ Hq) as Hparts. cbn [snd plain_class_parts] in Hparts.
      apply list_elem_of_lookup_2 in Hloc.
      assert (Hbody : n ∈ body0).
      { rewrite !elem_of_app in Hloc.
        assert (Hnot : forall l, n ∈ l ->
                  forallb (fun x => negb (is_FunctionDef x)) l = true -> False).
        { intros l Hl Hall. pose proof (forallb_elem_of _ _ _ Hall Hl) as H.
          cbn beta in H. rewrite Hn in H. discriminate. }
        rewrite !forallb_app, !andb_true_iff in Hparts.
        destruct Hparts as (Hb & Hk & Hd).
        destruct Hloc as [H|[H|[H|H]]]; [elim (Hnot _ H Hb)|elim (Hnot _ H Hk)
                                         |exact H|elim (Hnot _ H Hd)]. }
      destruct (Forall2_elem_of_l _ _ _
                  (q, ClassDef name0 bases keywords body0 decorator_list) Hcs)
        as (c & _ & Hc).
      { apply elem_of_filter_bool. split; [exact Hq|reflexivity]. }
      cbn [snd] in Hc. inversion Hc as [? ? ? ? ? ms Hms]; subst.
      destruct (Forall2_elem_of_l _ _ _ (FunctionDef name a body decos returns) Hms)
        as (m & _ & Hm).
      { apply elem_of_filter_bool. split; [exact Hbody|reflexivity]. }
      eapply function_of_renderable; eauto.
Qed.

End Failure.

Lemma extract_outcome_witness :
  (all_renderable test_py /\ plain_classes test_py)
  /\ (exists data, extract keep_text test_py_lines test_py = Ok data)
  /\ all_renderable test_py.
Proof.
  assert (H1 : all_renderable test_py)
    by (apply declaration_renders_walk; vm_compute; reflexivity).
  assert (H2 : plain_classes test_py)
    by (apply plain_class_parts_walk; vm_compute; reflexivity).
  destruct (extract_outcome keep_text test_py_lines test_py) as (_ & Ha & Hb).
  split; [auto|]. split; [exact (Ha H1)|].
  destruct (Ha H1) as [data Hdata]. exact (Hb H2 data Hdata).
Defined.

(** ** The parent attribute, as stored *)

Lemma parents_origin (w : list ref) (m : gmap path node) (k : path) (n : node) :
  foldl set_parents m w !! k = Some n ->
  m !! k = Some n \/ exists r c, r ∈ w /\ c ∈ child_refs r /\ c.1 = k.
Proof.
  induction w as [|r w IH] using rev_ind; intros H; [now left|].
  rewrite foldl_snoc in H.
  apply set_parents_lookup in H as [H|(_ & c & Hc & Hk)].
  - destruct (IH H) as [Hm|(r' & c & Hr' & Hc & Hk)]; [now left|].
    right. exists r', c. split; [apply elem_of_app; now left|auto].
  - right. exists r, c. split; [|auto].
    apply elem_of_app. right. now apply list_elem_of_singleton.
Qed.

(** X4: on every class or function declaration of the tree other than
    the root, the first loop of [parse_file_structure] leaves a [parent]
    attribute, and it is the node directly above the declaration.  So the
    test [isinstance(getattr(node, 'parent', None), ast.ClassDef)] holds
    for a declaration exactly when the node directly above it is a class
    declaration. *)
Theorem declaration_parent (tree : node) (p : path) (n : node) :
  node_at tree p = Some n ->
  is_declaration n = true ->
  assign_parents tree !! p = parent_at tree p
  /\ (p <> [] -> exists c, assign_parents tree !! p = Some c)
  /\ (parent_is_ClassDef (assign_parents tree) (p, n) = true <->
      exists c, parent_at tree p = Some c /\ is_ClassDef c = true).
Proof.
  intros Hn _.
  assert (H : assign_parents tree !! p = parent_at tree p).
  { apply walk_complete in Hn. exact (assign_parents_lookup tree (p, n) Hn). }
  split; [exact H|]. split.
  - intros Hp. rewrite H. destruct p as [|i q]; [now elim Hp|].
    cbn [parent_at]. cbn [node_at] in Hn.
    destruct (node_at tree q) as [c|]; [eauto|discriminate].
  - unfold parent_is_ClassDef. cbn [fst]. rewrite H.
    destruct (parent_at tree p) as [c|].
    + split; [eauto|]. intros (c' & [= <-] & Hc). exact Hc.
    + split; [discriminate|]. intros (c' & Hc & _). discriminate.
Qed.

Lemma declaration_parent_witness :
  (node_at nested_py [0; 0] = Some nested_method
   /\ is_declaration nested_method = true)
  /\ parent_is_ClassDef (assign_parents nested_py) ([0; 0], nested_method) = true.
Proof.
  assert (H1 : node_at nested_py [0; 0] = Some nested_method) by reflexivity.
  assert (H2 : is_declaration nested_method = true) by reflexivity.
  destruct (declaration_parent nested_py [0; 0] nested_method H1 H2) as (_ & _ & H).
  split; [auto|]. apply H. eexists. split; reflexivity.
Defined.

(** ** No declaration is lost or listed twice *)

Lemma bfs_children_law (q : list ref) :
  bfs q = q ++ flat_map child_refs (bfs q).
Proof.
  apply (bfs_ind (fun q out => out = q ++ flat_map child_refs out)).
  - reflexivity.
  - intros r rest IH. cbn [app flat_map]. f_equal.
    rewrite IH at 1. now rewrite <- app_assoc.
Qed.

(** The walk is the root followed by the children of the nodes of the
    walk, in its order. *)
Lemma walk_children_law (tree : node) :
  walk tree = ([], tree) :: flat_map child_refs (walk tree).
Proof. rewrite walk_bfs. apply (bfs_children_law [([], tree)]). Qed.

Lemma length_flat_map {A B} (f : A -> list B) (l : list A) :
  List.length (flat_map f l) = sum_list_with (fun x => List.length (f x)) l.
Proof.
  induction l as [|x l IH]; [reflexivity|]. cbn [flat_map sum_list_with].
  now rewrite List.length_app, IH.
Qed.

Lemma sum_list_with_elem_of {A} (f g : A -> nat) (l : list A) :
  (forall x, x ∈ l -> f x = g x) -> sum_list_with f l = sum_list_with g l.
Proof.
  induction l as [|x l IH]; intros H; [reflexivity|]. cbn [sum_list_with].
  rewrite (H x) by (apply elem_of_cons; now left).
  rewrite IH; [reflexivity|]. intros y Hy. apply H. apply elem_of_cons. now right.
Qed.

Lemma sum_list_with_filter {A} (p : A -> bool) (g : A -> nat) (l : list A) :
  sum_list_with (fun x => if p x then g x else 0) l
  = sum_list_with g (List.filter p l).
Proof.
  induction l as [|x l IH]; [reflexivity|]. cbn [sum_list_with List.filter].
  destruct (p x); cbn [sum_list_with]; lia.
Qed.

Lemma filter_split_length {A} (f g : A -> bool) (l : list A) :
  List.length (List.filter f l)
  = List.length (List.filter (fun x => f x && g x) l)
    + List.length (List.filter (fun x => f x && negb (g x)) l).
Proof.
  induction l as [|x l IH]; [reflexivity|]. cbn [List.filter].
  destruct (f x), (g x); cbn [andb negb List.length]; lia.
Qed.

Lemma filter_imap_length (f : node -> bool) (g : nat -> path) (l : list node) :
  List.length (List.filter (fun c : ref => f c.2) (imap (fun i c => (g i, c)) l))
  = List.length (List.filter f l).
Proof.
  revert g. induction l as [|x l IH]; intros g; [reflexivity|].
  rewrite imap_cons. cbn [List.filter snd].
  specialize (IH (g ∘ S)). unfold compose in IH.
  destruct (f x); cbn [List.length]; now rewrite <- IH.
Qed.

Lemma filter_plain_parts (l : list node) :
  forallb (fun x => negb (is_FunctionDef x)) l = true ->
  List.filter is_FunctionDef l = [].
Proof.
  intros H. apply filter_none. intros x Hx.
  apply negb_true_iff. exact (forallb_elem_of _ _ _ H Hx).
Qed.

(** The methods a class has in the tree, counted at its children. *)
Lemma methods_among_children (tree : node) (r : ref) :
  located tree r -> plain_class_parts r.2 = true ->
  List.length (List.filter (fun c => is_FunctionDef c.2 && negb (standalone tree c))
                 (child_refs r))
  = if is_ClassDef r.2
    then List.length (List.filter is_FunctionDef (class_body r.2))
    else 0.
Proof.
  intros Hloc Hplain.
  assert (Hpar : forall c, c ∈ child_refs r ->
            is_FunctionDef c.2 && negb (standalone tree c)
            = is_FunctionDef c.2 && is_ClassDef r.2).
  { intros c (i & Hc & _)%child_refs_spec. unfold standalone.
    rewrite Hc. cbn [parent_at]. rewrite Hloc.
    destruct (is_FunctionDef c.2), (is_ClassDef r.2); reflexivity. }
  rewrite (filter_pointwise _ _ _ Hpar).
  destruct (is_ClassDef r.2) eqn:Hcls.
  - rewrite (filter_pointwise _ (fun c : ref => is_FunctionDef c.2)).
    2:{ intros c _. apply andb_true_r. }
    unfold child_refs. rewrite filter_imap_length.
    destruct r as [p n]. cbn [snd] in *. destruct n; try discriminate.
    cbn [iter_child_nodes class_body plain_class_parts] in *.
    rewrite !forallb_app, !andb_true_iff in Hplain.
    destruct Hplain as (Hb & Hk & Hd).
    rewrite !List.filter_app, (filter_plain_parts _ Hb), (filter_plain_parts _ Hk),
      (filter_plain_parts _ Hd), app_nil_r. reflexivity.
  - rewrite filter_none; [reflexivity|]. intros c _. apply andb_false_r.
Qed.

Section Counting.

Variable cleandoc : string -> string.

Lemma class_of_method_count (n : node) (c : class_info) :
  class_of cleandoc n c ->
  List.length (c_methods c) = List.length (List.filter is_FunctionDef (class_body n)).
Proof.
  intros H. inversion H as [? ? ? ? ? ms Hms]; subst. cbn.
  symmetry. exact (Forall2_length _ _ _ Hms).
Qed.

Lemma class_entries_method_count (l : list ref) (k : list class_info) :
  Forall2 (fun r c => class_of cleandoc r.2 c) l k ->
  sum_list_with (fun c => List.length (c_methods c)) k
  = sum_list_with
      (fun r : ref => List.length (List.filter is_FunctionDef (class_body r.2))) l.
Proof.
  induction 1 as [|r c l k Hrc _ IH]; [reflexivity|].
  cbn [sum_list_with]. rewrite IH. f_equal. now apply class_of_method_count.
Qed.

(** X5: on a tree as the parser builds it, every function declaration of
    the file, at whatever depth, gives exactly one entry, in [functions] or
    in the [methods] of one class; and every class declaration, nested or
    not, gives exactly one entry of [classes]. *)
Theorem every_declaration_listed (n_lines : nat) (tree : node) (data : structure) :
  plain_classes tree ->
  extract cleandoc n_lines tree = Ok data ->
  List.length (classes data)
  = List.length (List.filter (fun r => is_ClassDef r.2) (walk tree))
  /\ List.length (functions data)
     + sum_list_with (fun c => List.length (c_methods c)) (classes data)
     = List.length (List.filter (fun r => is_FunctionDef r.2) (walk tree)).
Proof.
  intros Hplain (_ & _ & Hcs & Hfs)%extract_Ok.
  split; [symmetry; exact (Forall2_length _ _ _ Hcs)|].
  rewrite (filter_split_length (fun r : ref => is_FunctionDef r.2) (standalone tree)).
  rewrite (filter_pointwise (fun x : ref => is_FunctionDef x.2 && standalone tree x)
             (standalone tree)).
  2:{ intros x _. unfold standalone. destruct (is_FunctionDef x.2); reflexivity. }
  rewrite <- (Forall2_length _ _ _ Hfs). f_equal.
  assert (Hm : sum_list_with (fun c => List.length (c_methods c)) (classes data)
               = sum_list_with
                   (fun r : ref => List.length (List.filter is_FunctionDef (class_body r.2)))
                   (List.filter (fun r : ref => is_ClassDef r.2) (walk tree))).
  { now apply class_entries_method_count. }
  rewrite Hm, <- sum_list_with_filter. symmetry.
  rewrite (walk_children_law tree) at 1. cbn [List.filter].
  assert (Hroot : is_FunctionDef tree && negb (standalone tree (@nil nat, tree)) = false).
  { unfold standalone. cbn. destruct (is_FunctionDef tree); reflexivity. }
  cbn [snd].
  rewrite Hroot, filter_flat_map, length_flat_map.
  apply sum_list_with_elem_of. intros r Hr.
  apply methods_among_children; [now apply walk_located|now apply Hplain].
Qed.

End Counting.

Lemma every_declaration_listed_witness :
  (plain_classes test_py
   /\ extract keep_text test_py_lines test_py = Ok test_py_data)
  /\ List.length (classes test_py_data) = 1
  /\ List.length (functions test_py_data)
     + sum_list_with (fun c => List.length (c_methods c)) (classes test_py_data)
     = 5.
Proof.
  assert (H1 : plain_classes test_py)
    by (apply plain_class_parts_walk; vm_compute; reflexivity).
  assert (H2 : extract keep_text test_py_lines test_py = Ok test_py_data)
    by (vm_compute; reflexivity).
  destruct (every_declaration_listed keep_text test_py_lines test_py test_py_data
              H1 H2) as [Hc Hf].
  split; [auto|]. split; [rewrite Hc|rewrite Hf]; vm_compute; reflexivity.
Defined.

(** ** Imports *)

(** X6: [imports] holds the entries of every import statement of the
    file, wherever it stands (inside a function, a class or a conditional
    as well), and nothing else; the alias after [as] and the number of
    leading dots of a relative import play no part.  The entries come in
    the order of the walk, outer statements before nested ones. *)
Theorem imports_anywhere (cleandoc : string -> string) (n_lines : nat)
    (tree : node) (data : structure) :
  extract cleandoc n_lines tree = Ok data ->
  imports data = flat_map (fun r => import_entries r.2) (walk tree)
  /\ (forall s, s ∈ imports data <->
                exists p n, node_at tree p = Some n /\ s ∈ import_entries n)
  /\ (forall p names al, node_at tree p = Some (Import names) ->
                         al ∈ names -> alias_name al ∈ imports data)
  /\ (forall p module names level al,
        node_at tree p = Some (ImportFrom module names level) ->
        al ∈ names ->
        (default "" module +:+ "." +:+ alias_name al) ∈ imports data).
Proof.
  intros (_ & Hi & _ & _)%extract_Ok.
  assert (Hiff : forall s, s ∈ imports data <->
                   exists p n, node_at tree p = Some n /\ s ∈ import_entries n).
  { intros s. rewrite Hi, elem_of_flat_map. split.
    - intros ([p n] & Hr & Hs). exists p, n. split; [|exact Hs].
      exact (walk_located _ _ Hr).
    - intros (p & n & Hn & Hs). exists (p, n). split; [|exact Hs].
      now apply walk_complete. }
  split; [exact Hi|]. split; [exact Hiff|]. split.
  - intros p names al Hn Hal. apply Hiff. exists p, (Import names).
    split; [exact Hn|]. cbn. apply list_elem_of_In, in_map, list_elem_of_In, Hal.
  - intros p module names level al Hn Hal. apply Hiff.
    exists p, (ImportFrom module names level). split; [exact Hn|]. cbn.
    apply list_elem_of_In.
    apply (in_map (fun al => default "" module +:+ "." +:+ alias_name al)).
    now apply list_elem_of_In.
Qed.

Lemma imports_anywhere_witness :
  extract keep_text 3 late_import_py
  = Ok {| lines_of_code := 3; imports := ["os"; "json"]; classes := [];
          functions := [{| f_name := "load"; f_docstring := None;
                           f_args := []; f_returns := None |}] |}
  /\ "json" ∈ ["os"; "json"].
Proof.
  assert (H : extract keep_text 3 late_import_py
              = Ok {| lines_of_code := 3; imports := ["os"; "json"]; classes := [];
                      functions := [{| f_name := "load"; f_docstring := None;
                                       f_args := []; f_returns := None |}] |})
    by (vm_compute; reflexivity).
  split; [exact H|].
  destruct (imports_anywhere keep_text 3 late_import_py _ H) as (_ & _ & Hin & _).
  exact (Hin [1; 0] [import_as "json"] (import_as "json") eq_refl
           (list_elem_of_here _ _)).
Defined.

(** ** Reading the file *)


Lemma append_assoc (a b c : string) : (a +:+ b) +:+ c = a +:+ (b +:+ c).
Proof.
  induction a as [|x a IH]; [reflexivity|].
  change ((String x a +:+ b) +:+ c) with (String x ((a +:+ b) +:+ c)).
  now rewrite IH.
Qed.


Lemma readlines_nil (s : string) : readlines s = [] <-> s = "".
Proof.
  split; [|intros ->; reflexivity].
  destruct s as [|c s]; [reflexivity|]. cbn [readlines].
  destruct (Ascii.eqb c newline); [discriminate|].
  destruct (readlines s); discriminate.
Qed.


Lemma readlines_length (s : string) :
  List.length (readlines s)
  = count_newlines s + (if open_ended s then 1 else 0).
Proof.
  induction s as [|c s IH]; [reflexivity|].
  cbn [readlines count_newlines open_ended].
  destruct (Ascii.eqb c newline) eqn:Hc.
  - cbn [List.length negb]. rewrite IH. destruct s; cbn; lia.
  - destruct (readlines s) as [|l ls] eqn:E.
    + apply readlines_nil in E. subst s. reflexivity.
    + cbn [List.length] in *. rewrite IH.
      destruct s as [|c' s']; [discriminate|]. reflexivity.
Qed.




Section Outcome.

Variable cleandoc : string -> string.
Variable ast_parse : string -> option node.

(** X8: when the text of the file can be read and the parser returns a
    tree for it, [parse_file_structure] does what the extraction does on
    that tree, with the number of lines of the text.  Whenever it returns
    a record, the record is the extraction from the tree of the text of
    the file, and its [lines_of_code] is the number of newlines of the
    text, plus one when the last line has no newline: blank lines and
    comment lines are counted. *)
Theorem parse_file_structure_record (w : world) (filepath : string) :
  (forall content tree,
     files w !! filepath = Some content -> ast_parse content = Some tree ->
     parse_file_structure cleandoc ast_parse w filepath
     = extract cleandoc
         (count_newlines content + (if open_ended content then 1 else 0)) tree)
  /\ (forall data, parse_file_structure cleandoc ast_parse w filepath = Ok data ->
        exists content tree,
          files w !! filepath = Some content
          /\ ast_parse content = Some tree
          /\ extract cleandoc (lines_of_code data) tree = Ok data
          /\ lines_of_code data
             = count_newlines content + (if open_ended content then 1 else 0)).
Proof.
  unfold parse_file_structure, read_file, open_read, parse.
  destruct (files w !! filepath) as [content|]; cbn [bind].
  - rewrite readlines_length.
    destruct (ast_parse content) as [tree|] eqn:Hp; cbn [bind].
    + split; [intros c t [= <-] H; congruence|].
      intros data Hdata. pose proof Hdata as (Hl & _)%extract_Ok.
      exists content, tree. rewrite Hl. auto.
    + split; [intros c t [= <-] H; congruence|discriminate].
  - split; [intros c t H; discriminate H|discriminate].
Qed.

End Outcome.

(** ** What [main] does to the world *)







Section Main_facts.

Variable cleandoc : string -> string.
Variable ast_parse : string -> option node.

Lemma after_asking_files (argv : list string) (w : world) :
  files (after_asking argv w) = files w.
Proof.
  unfold after_asking, input.
  destruct argv as [|a [|b [|c argv]]]; try reflexivity; destruct (stdin w); reflexivity.
Qed.


(** [main] by cases on the path it is given and on how the report comes
    out. *)
Lemma main_cases (argv : list string) (w : world) :
  main cleandoc ast_parse argv w =
  let w1 := after_asking argv w in
  match requested argv w with
  | None => (w1, Raise EOFError)
  | Some filepath =>
      if negb (isfile w1 filepath) then
        (print "File not found. Exiting." w1, Raise (SystemExit 1))
      else
        match report_for cleandoc ast_parse w1 filepath with
        | Raise e => (w1, Raise e)
        | Ok report =>
            (print ("Style report generated: " +:+ report_filename filepath)
               (write_file (report_filename filepath) report w1), Ok tt)
        end
  end.
Proof.
  assert (Hgo : forall w1 filepath,
    (if negb (isfile w1 filepath)
     then (print "File not found. Exiting." w1, Raise (SystemExit 1))
     else match parse_file_structure cleandoc ast_parse w1 filepath with
          | Raise e => (w1, Raise e)
          | Ok data =>
              (print ("Style report generated: "
                      +:+ ("style_report_" +:+ basename filepath +:+ ".txt"))
                 (write_file ("style_report_" +:+ basename filepath +:+ ".txt")
                    (generate_full_report data) w1), Ok tt)
          end)
    = (if negb (isfile w1 filepath)
       then (print "File not found. Exiting." w1, Raise (SystemExit 1))
       else match report_for cleandoc ast_parse w1 filepath with
            | Raise e => (w1, Raise e)
            | Ok report =>
                (print ("Style report generated: " +:+ report_filename filepath)
                   (write_file (report_filename filepath) report w1), Ok tt)
            end)).
  { intros w1 filepath. unfold report_for, report_filename.
    destruct (negb (isfile w1 filepath)); [reflexivity|].
    destruct (parse_file_structure _ _ _ _); reflexivity. }
  unfold main, requested, after_asking, input.
  destruct argv as [|a [|b [|c argv]]]; cbn zeta; try apply Hgo;
    destruct (stdin w) as [|line rest]; cbn [bind fst]; try reflexivity; apply Hgo.
Qed.

(** X9: without a usable path [main] stops before it reads anything.  When
    no file is stored under the path it prints ["File not found. Exiting."],
    ends with exit status 1 and leaves every file as it was; when the
    prompt gets no line it ends with [EOFError]. *)
Theorem main_without_file (argv : list string) (w : world) :
  (forall filepath,
     requested argv w = Some filepath ->
     files w !! filepath = None ->
     (main cleandoc ast_parse argv w).2 = Raise (SystemExit 1)
     /\ files (main cleandoc ast_parse argv w).1 = files w
     /\ stdout (main cleandoc ast_parse argv w).1
        = stdout (after_asking argv w) ++ ["File not found. Exiting." +:+ nl])
  /\ (requested argv w = None ->
      (main cleandoc ast_parse argv w).2 = Raise EOFError
      /\ files (main cleandoc ast_parse argv w).1 = files w).
Proof.
  rewrite main_cases. cbn zeta. split.
  - intros filepath -> Hnone.
    assert (Hno : isfile (after_asking argv w) filepath = false).
    { unfold isfile. rewrite after_asking_files, Hnone.
      apply bool_decide_eq_false. intros [x Hx]. discriminate. }
    rewrite Hno. cbn. split; [reflexivity|]. split; [apply after_asking_files|reflexivity].
  - intros ->. cbn. split; [reflexivity|apply after_asking_files].
Qed.



End Main_facts.

Lemma parse_file_structure_record_witness :
  (files small_world !! "a.py" = Some "pass"
   /\ parse_pass_only "pass" = Some (Module [Pass]))
  /\ parse_file_structure keep_text parse_pass_only small_world "a.py"
     = extract keep_text 1 (Module [Pass]).
Proof.
  assert (H1 : files small_world !! "a.py" = Some "pass") by reflexivity.
  assert (H2 : parse_pass_only "pass" = Some (Module [Pass])) by reflexivity.
  destruct (parse_file_structure_record keep_text parse_pass_only small_world "a.py")
    as (Ha & _).
  split; [auto|]. exact (Ha _ _ H1 H2).
Defined.

Lemma main_without_file_witness :
  (requested ["checker.py"; "nope.py"] small_world = Some "nope.py"
   /\ files small_world !! "nope.py" = None
   /\ requested ["checker.py"] small_world = None)
  /\ (main keep_text parse_pass_only ["checker.py"; "nope.py"] small_world).2
     = Raise (SystemExit 1)
  /\ (main keep_text parse_pass_only ["checker.py"] small_world).2
     = Raise EOFError.
Proof.
  assert (H1 : requested ["checker.py"; "nope.py"] small_world = Some "nope.py")
    by reflexivity.
  assert (H2 : files small_world !! "nope.py" = None) by reflexivity.
  assert (H3 : requested ["checker.py"] small_world = None) by reflexivity.
  destruct (main_without_file keep_text parse_pass_only
              ["checker.py"; "nope.py"] small_world) as (Ha & _).
  destruct (main_without_file keep_text parse_pass_only
              ["checker.py"] small_world) as (_ & Hb).
  split; [auto|]. split; [exact (proj1 (Ha _ H1 H2))|exact (proj1 (Hb H3))].
Defined.



(** ** When the two checks say that all is well *)

Lemma filter_negb_nil {A} (f : A -> bool) (l : list A) :
  List.filter (fun x => negb (f x)) l = [] <-> Forall (fun x => f x = true) l.
Proof.
  induction l as [|x l IH]; cbn [List.filter].
  - split; constructor.
  - destruct (f x) eqn:Hx; cbn [negb].
    + rewrite IH. split; [now constructor|]. intros H. now inversion H.
    + split; [discriminate|]. intros H. inversion H; congruence.
Qed.

Lemma map_nil_iff {A B} (f : A -> B) (l : list A) : map f l = [] <-> l = [].
Proof. destruct l; split; (reflexivity || discriminate). Qed.

Lemma flat_map_nil_iff {A B} (f : A -> list B) (l : list A) :
  flat_map f l = [] <-> Forall (fun x => f x = []) l.
Proof.
  induction l as [|x l IH]; cbn [flat_map].
  - split; constructor.
  - split.
    + intros [H1 H2]%app_eq_nil. constructor; [exact H1|now apply IH].
    + intros H. inversion H as [|? ? H1 H2]; subst. rewrite H1. now apply IH.
Qed.

(** X12: the type-annotation section is the line ["All functions and
    methods have type annotations."] exactly when every standalone
    function and every method of every class is fully annotated; a file
    without functions gets that line too. *)
Theorem type_annotations_all_clear (data : structure) :
  check_type_annotations data
  = "All functions and methods have type annotations."
  <-> Forall (fun f => has_type_annotations f = true) (functions data)
      /\ Forall (fun c => Forall (fun m => has_type_annotations m = true)
                           (c_methods c))
           (classes data).
Proof.
  assert (Hm : missing_annotations data = [] <->
    Forall (fun f => has_type_annotations f = true) (functions data)
    /\ Forall (fun c => Forall (fun m => has_type_annotations m = true) (c_methods c))
         (classes data)).
  { unfold missing_annotations. split.
    - intros [H1 H2]%app_eq_nil. apply map_nil_iff, filter_negb_nil in H1.
      split; [exact H1|]. apply flat_map_nil_iff in H2.
      eapply Forall_impl; [exact H2|]. intros c Hc.
      now apply map_nil_iff, filter_negb_nil in Hc.
    - intros [H1 H2]. apply filter_negb_nil in H1. rewrite H1. cbn [map app].
      apply flat_map_nil_iff. eapply Forall_impl; [exact H2|]. intros c Hc.
      apply filter_negb_nil in Hc. now rewrite Hc. }
  rewrite <- Hm. unfold check_type_annotations.
  destruct (missing_annotations data) as [|item items].
  - split; reflexivity.
  - split; discriminate.
Qed.

(** X13: the naming section is the line ["All names adhere to the
    specified naming convention."] exactly when every class name starts
    with an upper-case letter followed by letters and digits and every
    function and method name starts with a lower-case letter or an
    underscore followed by lower-case letters, digits and underscores. *)
Theorem naming_all_clear (data : structure) :
  check_naming_conventions data
  = "All names adhere to the specified naming convention."
  <-> Forall (fun c => camel_case (c_name c)) (classes data)
      /\ Forall (fun c => Forall (fun m => snake_case (f_name m)) (c_methods c))
           (classes data)
      /\ Forall (fun f => snake_case (f_name f)) (functions data).
Proof.
  assert (Hc : class_issues data = [] <->
                Forall (fun c => camel_case (c_name c)) (classes data)).
  { unfold class_issues. rewrite map_nil_iff, filter_negb_nil.
    split; intros H; (eapply Forall_impl; [exact H|]); intros c Hcc;
      now apply re_match_shaped. }
  assert (Hf : func_issues data = [] <->
    Forall (fun c => Forall (fun m => snake_case (f_name m)) (c_methods c))
      (classes data)
    /\ Forall (fun f => snake_case (f_name f)) (functions data)).
  { unfold func_issues. split.
    - intros [H1 H2]%app_eq_nil. split.
      + apply flat_map_nil_iff in H1. eapply Forall_impl; [exact H1|].
        intros c H. apply map_nil_iff, filter_negb_nil in H.
        eapply Forall_impl; [exact H|]. intros m Hm. now apply re_match_shaped.
      + apply map_nil_iff, filter_negb_nil in H2.
        eapply Forall_impl; [exact H2|]. intros f H. now apply re_match_shaped.
    - intros [H1 H2].
      assert (E1 : flat_map (fun c =>
                map (fun m => method_label c m +:+ " does not follow snake_case")
                  (List.filter (fun m => negb (re_match function_pattern (f_name m)))
                     (c_methods c))) (classes data) = []).
      { apply flat_map_nil_iff. eapply Forall_impl; [exact H1|]. intros c H.
        apply map_nil_iff, filter_negb_nil.
        eapply Forall_impl; [exact H|]. intros m Hm. now apply re_match_shaped. }
      assert (E2 : List.filter (fun f => negb (re_match function_pattern (f_name f)))
                     (functions data) = []).
      { apply filter_negb_nil.
        eapply Forall_impl; [exact H2|]. intros f H. now apply re_match_shaped. }
      rewrite E1, E2. reflexivity. }
  rewrite <- Hc, <- Hf. unfold check_naming_conventions.
  destruct (class_issues data), (func_issues data).
  - split; [auto|reflexivity].
  - split; [discriminate|]. intros [_ H]. discriminate.
  - split; [discriminate|]. intros [H _]. discriminate.
  - split; [discriminate|]. intros [H _]. discriminate.
Qed.

(** ** Names that cannot pass *)

Lemma string_exists_append (set : ascii -> bool) (a b : string) :
  string_exists set (a +:+ b) = string_exists set a || string_exists set b.
Proof.
  induction a as [|c a IH]; [reflexivity|].
  change (String c a +:+ b) with (String c (a +:+ b)). cbn [string_exists].
  now rewrite IH, orb_assoc.
Qed.

Lemma string_forall_excludes (rest bad : ascii -> bool) (s : string) :
  (forall c, rest c = true -> bad c = false) ->
  string_forall rest s = true -> string_exists bad s = false.
Proof.
  intros H. induction s as [|c s IH]; [reflexivity|]. cbn.
  intros [Hc Hs]%andb_true_iff. now rewrite (H c Hc), IH.
Qed.

Lemma shaped_excludes (first rest bad : ascii -> bool) (s : string) :
  (forall c, first c = true -> bad c = false) ->
  (forall c, rest c = true -> bad c = false) ->
  bad newline = false ->
  shaped first rest s -> string_exists bad s = false.
Proof.
  intros Hfirst Hrest Hnl (c & body & Hs & Hc & Hbody).
  pose proof (string_forall_excludes rest bad body Hrest Hbody) as Hb.
  destruct Hs as [->| ->]; cbn [string_exists]; rewrite (Hfirst c Hc); cbn [orb].
  - exact Hb.
  - rewrite string_exists_append, Hb.
    change (string_exists bad nl) with (bad newline || false). now rewrite Hnl.
Qed.

Lemma ascii_cases (P : ascii -> Prop) :
  (forall b0 b1 b2 b3 b4 b5 b6 b7, P (Ascii b0 b1 b2 b3 b4 b5 b6 b7)) ->
  forall c, P c.
Proof. intros H [b0 b1 b2 b3 b4 b5 b6 b7]. apply H. Qed.

Lemma class_sets_exclude_underscore (c : ascii) :
  (upper c = true -> underscore c = false)
  /\ (alnum c = true -> underscore c = false).
Proof.
  revert c. apply ascii_cases.
  intros [] [] [] [] [] [] [] []; vm_compute; split; congruence.
Qed.

Lemma function_sets_exclude_upper (c : ascii) :
  (lower c || underscore c = true -> upper c = false)
  /\ (lower c || digit c || underscore c = true -> upper c = false).
Proof.
  revert c. apply ascii_cases.
  intros [] [] [] [] [] [] [] []; vm_compute; split; congruence.
Qed.

(** X14: a class name that contains an underscore anywhere is always
    reported, and so is a function or method name that contains an
    upper-case letter anywhere. *)
Theorem names_that_cannot_pass (name : string) :
  (string_exists underscore name = true -> re_match class_pattern name = false)
  /\ (string_exists upper name = true -> re_match function_pattern name = false).
Proof.
  split; intros Hbad; apply not_true_iff_false; intros Hm;
    apply re_match_shaped in Hm.
  - rewrite (shaped_excludes upper alnum underscore name) in Hbad;
      [discriminate| | |reflexivity|exact Hm];
      intros c; apply class_sets_exclude_underscore.
  - rewrite (shaped_excludes (fun c => lower c || underscore c)
               (fun c => lower c || digit c || underscore c) upper name) in Hbad;
      [discriminate| | |reflexivity|exact Hm];
      intros c; apply function_sets_exclude_upper.
Qed.

Lemma names_that_cannot_pass_witness :
  (string_exists underscore "My_Class" = true
   /\ string_exists upper "doThing" = true)
  /\ re_match class_pattern "My_Class" = false
  /\ re_match function_pattern "doThing" = false.
Proof.
  assert (H1 : string_exists underscore "My_Class" = true) by reflexivity.
  assert (H2 : string_exists upper "doThing" = true) by reflexivity.
  split; [auto|]. split.
  - exact (proj1 (names_that_cannot_pass "My_Class") H1).
  - exact (proj2 (names_that_cannot_pass "doThing") H2).
Defined.

(** ** Full annotation, seen from the declaration *)

Section Declared.

Variable cleandoc : string -> string.

(** X15: a function or method is counted as fully annotated exactly when
    the annotation of each parameter in [args] and the return annotation
    are rendered to a text.  A parameter without annotation, such as a bare
    [self], makes the declaration count as unannotated, and so does an
    annotation the renderer gives up on; positional-only and keyword-only
    parameters, [*args] and [**kwargs] are not looked at. *)
Theorem fully_annotated_declaration (name : string) (a : arguments)
    (body : list node) (returns : option node) (f : function_info) :
  function_info_of cleandoc name a body returns = Ok f ->
  (has_type_annotations f = true <->
     Forall (fun x => exists s, annotation_to_string (annotation x) = Ok (Some s))
       (args a)
     /\ exists s, annotation_to_string returns = Ok (Some s))
  /\ ((exists x, x ∈ args a /\ annotation_to_string (annotation x) = Ok None) ->
      has_type_annotations f = false)
  /\ ((exists x, x ∈ args a /\ annotation x = None) ->
      has_type_annotations f = false)
  /\ function_info_of cleandoc name (positional (args a)) body returns = Ok f.
Proof.
  intros Hf. pose proof Hf as (_ & _ & Hargs & Hret)%function_info_of_Ok.
  assert (Hiff : has_type_annotations f = true <->
     Forall (fun x => exists s, annotation_to_string (annotation x) = Ok (Some s))
       (args a)
     /\ exists s, annotation_to_string returns = Ok (Some s)).
  { unfold has_type_annotations.
    rewrite andb_true_iff, forallb_annotated, bool_decide_eq_true.
    assert (Hps : Forall (fun p => p_annotation p <> None) (f_args f) <->
              Forall (fun x => exists s, annotation_to_string (annotation x) = Ok (Some s))
                (args a)).
    { clear -Hargs. induction Hargs as [|x p xs ps [_ Hx] _ IH].
      - split; constructor.
      - split; intros H; inversion H as [|? ? H1 H2]; subst; constructor.
        + rewrite Hx. destruct (p_annotation p); [eauto|congruence].
        + now apply IH.
        + destruct H1 as [s Hs]. rewrite Hx in Hs. congruence.
        + now apply IH. }
    rewrite Hps, Hret. split; intros [H1 H2]; (split; [exact H1|]).
    - destruct H2 as [s Hs]. exists s. now rewrite Hs.
    - destruct H2 as [s Hs]. injection Hs as ->. eauto. }
  assert (Hnone : (exists x, x ∈ args a /\ annotation_to_string (annotation x) = Ok None) ->
                  has_type_annotations f = false).
  { intros (x & Hx & Hn). apply not_true_iff_false. intros [Hall _]%Hiff.
    rewrite Forall_forall in Hall. destruct (Hall x Hx) as [s Hs]. congruence. }
  split; [exact Hiff|]. split; [exact Hnone|]. split; [|exact Hf].
  intros (x & Hx & Hn). apply Hnone. exists x. split; [exact Hx|]. now rewrite Hn.
Qed.

Lemma visit_passes (parents : gmap path node) (st : lists) (r : ref) :
  collected r.2 = false -> visit cleandoc parents st r = Ok st.
Proof. destruct r as [p n]. cbn [snd]. destruct n; (discriminate || reflexivity). Qed.

Lemma for_each_visit_passes (parents : gmap path node) (st : lists) (l : list ref) :
  (forall r, r ∈ l -> collected r.2 = false) ->
  for_each (visit cleandoc parents) st l = Ok st.
Proof.
  induction l as [|r l IH]; intros H; [reflexivity|]. cbn [for_each].
  rewrite visit_passes by (apply H, elem_of_cons; now left). cbn [bind].
  apply IH. intros x Hx. apply H, elem_of_cons. now right.
Qed.

(** X16: for a file without imports, classes and functions (an empty file,
    or statements only) the record holds the line count and three empty
    lists, and the report is the fixed text below around the line count:
    the three "none found" lines, an empty docstring section and the two
    confirmation lines. *)
Theorem nothing_to_report (n_lines : nat) (tree : node) :
  (forall r, r ∈ walk tree -> collected r.2 = false) ->
  extract cleandoc n_lines tree = Ok (empty_record n_lines)
  /\ generate_full_report (empty_record n_lines)
     = "File Structure" +:+ nl
       +:+ ("Total lines of code: " +:+ pretty n_lines) +:+ nl
       +:+ "No imports found." +:+ nl
       +:+ "No classes found." +:+ nl
       +:+ "No standalone functions found." +:+ nl
       +:+ (nl +:+ "Doc Strings") +:+ nl
       +:+ "" +:+ nl
       +:+ (nl +:+ "Type Annotation Check") +:+ nl
       +:+ "All functions and methods have type annotations." +:+ nl
       +:+ (nl +:+ "Naming Convention Check") +:+ nl
       +:+ "All names adhere to the specified naming convention.".
Proof.
  intros H. split.
  - unfold extract. rewrite for_each_visit_passes by exact H. reflexivity.
  - unfold generate_full_report, generate_file_structure_report, empty_record, join.
    cbn [lines_of_code imports classes functions app String.concat].
    rewrite !append_assoc. reflexivity.
Qed.

End Declared.

Lemma fully_annotated_declaration_witness :
  function_info_of keep_text "multiply" multiply_arguments [Pass]
    (Some (Name "int" Load)) = Ok multiply_info
  /\ has_type_annotations multiply_info = false.
Proof.
  assert (H : function_info_of keep_text "multiply" multiply_arguments [Pass]
                (Some (Name "int" Load)) = Ok multiply_info) by reflexivity.
  destruct (fully_annotated_declaration keep_text _ _ _ _ _ H) as (_ & _ & Hself & _).
  split; [exact H|]. apply Hself. exists (plain "self").
  split; [apply list_elem_of_here|reflexivity].
Defined.

Lemma nothing_to_report_witness :
  (forall r, r ∈ walk (Module [Pass]) -> collected r.2 = false)
  /\ extract keep_text 1 (Module [Pass]) = Ok (empty_record 1).
Proof.
  assert (H : forall r, r ∈ walk (Module [Pass]) -> collected r.2 = false).
  { intros r Hr.
    assert (Hall : forallb (fun r => negb (collected r.2)) (walk (Module [Pass])) = true)
      by (vm_compute; reflexivity).
    apply negb_true_iff. exact (forallb_elem_of _ _ _ Hall Hr). }
  split; [exact H|]. exact (proj1 (nothing_to_report keep_text 1 (Module [Pass]) H)).
Defined.

(** ** Full annotation, in any record *)

Lemma missing_annotations_parts (data : structure) (fs : list function_info)
    (cs : list class_info) :
  missing_annotations (with_entries data fs cs)
  = map function_label (List.filter (fun f => negb (has_type_annotations f)) fs)
    ++ flat_map (fun c =>
         map (method_label c)
           (List.filter (fun m => negb (has_type_annotations m)) (c_methods c)))
       cs.
Proof. reflexivity. Qed.

(** C5: a function or method is fully annotated exactly when every
    parameter has an annotation and the return type has one; without
    parameters that is exactly when the return type is annotated.  In any
    record, the list of missing annotations has one line for each function
    and each method that is not fully annotated, and when it is not empty
    the report shows these lines under the heading.  A function or a
    method that lacks only the return annotation is not fully annotated,
    and it stands in the list once, at its place: the list is what the
    entries before it give, then its line, then what the entries after it
    give. *)
Theorem has_type_annotations_spec (func : function_info) (data : structure) :
  (has_type_annotations func = true <->
     Forall (fun a => p_annotation a <> None) (f_args func)
     /\ f_returns func <> None)
  /\ (f_args func = [] ->
      (has_type_annotations func = true <-> f_returns func <> None))
  /\ List.length (missing_annotations data)
     = List.length
         (List.filter (fun f => negb (has_type_annotations f)) (functions data))
       + sum_list_with
           (fun c => List.length
              (List.filter (fun m => negb (has_type_annotations m)) (c_methods c)))
           (classes data)
  /\ (missing_annotations data <> [] ->
      check_type_annotations data
      = "Missing Type Annotations:" +:+ nl
        +:+ join nl (bullets (missing_annotations data)))
  /\ (Forall (fun a => p_annotation a <> None) (f_args func) ->
      f_returns func = None ->
      has_type_annotations func = false
      /\ (forall before after,
            functions data = before ++ func :: after ->
            missing_annotations data
            = missing_annotations (with_entries data before [])
              ++ function_label func
              :: missing_annotations (with_entries data after (classes data)))
      /\ (forall cbefore c cafter mbefore mafter,
            classes data = cbefore ++ c :: cafter ->
            c_methods c = mbefore ++ func :: mafter ->
            missing_annotations data
            = missing_annotations
                (with_entries data (functions data)
                   (cbefore ++ [with_methods c mbefore]))
              ++ method_label c func
              :: missing_annotations
                   (with_entries data [] (with_methods c mafter :: cafter)))
      /\ (forall (n_lines : nat) (imps : list string) (cname : string)
                 (cdoc : option string),
            let alone :=
              {| lines_of_code := n_lines; imports := imps; classes := [];
                 functions := [func] |} in
            let cls := {| c_name := cname; c_docstring := cdoc; c_methods := [func] |} in
            let in_class :=
              {| lines_of_code := n_lines; imports := imps; classes := [cls];
                 functions := [] |} in
            missing_annotations alone = [function_label func]
            /\ check_type_annotations alone =
                 "Missing Type Annotations:" +:+ nl +:+ "- " +:+ function_label func
            /\ missing_annotations in_class = [method_label cls func]
            /\ check_type_annotations in_class =
                 "Missing Type Annotations:" +:+ nl +:+ "- " +:+ method_label cls func)).
Proof.
  assert (Hiff : has_type_annotations func = true <->
     Forall (fun a => p_annotation a <> None) (f_args func)
     /\ f_returns func <> None).
  { unfold has_type_annotations. rewrite andb_true_iff, forallb_annotated.
    rewrite bool_decide_eq_true. split; intros [H1 H2]; split; auto.
    - destruct H2 as [x Hx]. congruence.
    - destruct (f_returns func); [eauto|congruence]. }
  split; [exact Hiff|]. split.
  { intros Hargs. rewrite Hiff, Hargs. split; [tauto|]. split; [constructor|auto]. }
  split.
  { unfold missing_annotations.
    rewrite List.length_app, List.length_map, length_flat_map. f_equal.
    induction (classes data) as [|c cs IH]; [reflexivity|].
    cbn [sum_list_with]. now rewrite List.length_map, IH. }
  split.
  { unfold check_type_annotations, bullets.
    destruct (missing_annotations data); [intros H; now elim H|reflexivity]. }
  intros Hargs Hret.
  assert (Hno : has_type_annotations func = false).
  { apply not_true_iff_false. intros E. apply Hiff in E as [_ E]. congruence. }
  split; [exact Hno|]. split; [|split].
  - intros before after Hfs. rewrite !missing_annotations_parts.
    unfold missing_annotations. rewrite Hfs, List.filter_app. cbn [List.filter].
    rewrite Hno. cbn [negb]. rewrite List.map_app. cbn [map flat_map].
    rewrite app_nil_r, <- app_assoc. reflexivity.
  - intros cbefore c cafter mbefore mafter Hcs Hms.
    rewrite !missing_annotations_parts.
    unfold missing_annotations. rewrite Hcs, !List.flat_map_app. cbn [flat_map].
    rewrite Hms, List.filter_app. cbn [List.filter]. rewrite Hno. cbn [negb].
    rewrite List.map_app. cbn [map with_methods c_methods app].
    rewrite app_nil_r. unfold method_label. cbn [c_name with_methods].
    rewrite <- !app_assoc. reflexivity.
  - intros n_lines imps cname cdoc alone cls in_class.
    unfold check_type_annotations, missing_annotations. cbn.
    rewrite Hno. cbn. auto.
Qed.

Lemma has_type_annotations_spec_witness :
  (Forall (fun a => p_annotation a <> None) (f_args unannotated_function)
   /\ f_returns unannotated_function = None
   /\ functions (with_entries late_import_data [multiply_info; unannotated_function] [])
      = [multiply_info] ++ unannotated_function :: [])
  /\ has_type_annotations unannotated_function = false
  /\ missing_annotations
       (with_entries late_import_data [multiply_info; unannotated_function] [])
     = ["Function 'multiply'"; "Function 'f'"].
Proof.
  assert (H1 : Forall (fun a => p_annotation a <> None) (f_args unannotated_function))
    by apply List.Forall_nil.
  assert (H2 : f_returns unannotated_function = None) by reflexivity.
  assert (H3 : functions (with_entries late_import_data
                            [multiply_info; unannotated_function] [])
               = [multiply_info] ++ unannotated_function :: []) by reflexivity.
  destruct (has_type_annotations_spec unannotated_function
              (with_entries late_import_data [multiply_info; unannotated_function] []))
    as (_ & _ & _ & _ & H).
  destruct (H H1 H2) as (Hno & Hplace & _).
  split; [auto|]. split; [exact Hno|].
  rewrite (Hplace [multiply_info] [] H3). reflexivity.
Defined.
